(** * Judgement Insights (src/app.py): session-state lifecycle

    A shallow embedding of the Streamlit script [src/app.py].  The script is
    re-executed top to bottom on every user interaction (a "render pass");
    everything that survives between passes lives in [st.session_state].

    - Python values that the script stores in its dictionaries are [pyval];
      a [str] is a [string], one character per element, and a [date] is its
      (year, month, day).
    - [st.session_state] is the record [session_state]; the nested
      dictionaries ([case_details], [timeline], each hearing) are finite maps
      with string keys, read with [dict.get] and written by key.
    - A block of the script is a computation in the monad [M]: it threads the
      session state, may raise a Python exception, and emits the UI calls and
      the calls to external services it makes, in order.
    - The user's input and the behaviour of the external services (the
      secrets store, the Gemini SDK, PyMuPDF, the PDF viewer component)
      during one pass are the fields of [inputs].
    - An alert ([st.error] and the like) that is given an [icon=] shows
      nothing and raises unless the icon is one emoji; the icons are kept as
      the script writes them, in their UTF-8 bytes.
    - Static layout calls (titles, headers, columns, expanders) carry no
      state and are left out. *)

From Stdlib Require Import ZArith Ascii.
From Stdlib Require String.
From stdpp Require Import gmap strings list sorting.

Local Open Scope Z_scope.

(** ** Python values *)

(** [datetime.date]: ordered as the tuple (year, month, day). *)
Record date := Date { year : Z; month : Z; day : Z }.

Definition date_compare (a b : date) : comparison :=
  match year a ?= year b with
  | Eq => match month a ?= month b with
          | Eq => day a ?= day b
          | c => c
          end
  | c => c
  end.

Definition date_ltb (a b : date) : bool :=
  match date_compare a b with Lt => true | _ => false end.

Definition date_eqb (a b : date) : bool :=
  match date_compare a b with Eq => true | _ => false end.

(** The values the script puts in its dictionaries: [None], [str], [date]
    and the list under [other_key_dates]. *)
Inductive pyval :=
| PNone
| PStr (s : string)
| PDate (d : date)
| PList (l : list date).

(** Python truthiness ([if v:], [a and b], [not v]). *)
Definition str_truthy (s : string) : bool :=
  match s with EmptyString => false | String _ _ => true end.

Definition truthy (v : pyval) : bool :=
  match v with
  | PNone => false
  | PStr s => str_truthy s
  | PDate _ => true
  | PList l => match l with [] => false | _ :: _ => true end
  end.

Definition opt_truthy (o : option string) : bool :=
  match o with None => false | Some s => str_truthy s end.

Definition of_date (o : option date) : pyval :=
  match o with None => PNone | Some d => PDate d end.

(** [len(s)] *)
Definition len (s : string) : Z := Z.of_nat (String.length s).

(** [s[:n]] for [n >= 0] *)
Definition str_take (n : Z) (s : string) : string :=
  String.substring 0 (Z.to_nat n) s.

(** [needle in hay] *)
Fixpoint str_contains (needle hay : string) : bool :=
  String.prefix needle hay ||
  match hay with
  | EmptyString => false
  | String _ rest => str_contains needle rest
  end.

(** [s.lower()] on the ASCII letters *)
Definition ascii_lower (c : ascii) : ascii :=
  let n := N_of_ascii c in
  if ((65 <=? n) && (n <=? 90))%N then ascii_of_N (n + 32) else c.

Fixpoint str_lower (s : string) : string :=
  match s with
  | EmptyString => EmptyString
  | String c rest => String (ascii_lower c) (str_lower rest)
  end.

(** [d.get(k, default)]: the default is returned only when the key is
    missing, never when it is present with value [None]. *)
Definition dict_get (d : gmap string pyval) (k : string) (default : pyval) : pyval :=
  match d !! k with
  | Some v => v
  | None => default
  end.

(** An element of the [hearings] list: a [dict], or anything else. *)
Inductive pyobj :=
| ODict (d : gmap string pyval)
| OVal (v : pyval).

(** ** Exceptions *)

(** A Python exception; [str(e)] is its message. *)
Inductive exn := Exn (msg : string).

Definition str_of_exn (e : exn) : string :=
  match e with Exn m => m end.

Inductive res (A : Type) :=
| Ok (a : A)
| Raise (e : exn).
Arguments Ok {A} a.
Arguments Raise {A} e.

(** ** Session state (lines 15-28) *)

Record session_state := SessionState {
  case_details : gmap string pyval;
  timeline : gmap string pyval;
  hearings : list pyobj;
  pdf_text : option string;
  summary : option string;
  gemini_configured : bool;
  gemini_error : option string;
  user_gemini_key : string;
  uploaded_file_id : option string
}.

Definition default_session_state : session_state :=
  {| case_details :=
       <["name" := PStr ""]> (<["number" := PStr ""]> (<["court" := PStr ""]>
       (<["judges" := PStr ""]> (<["judgement_date" := PNone]>
       (<["citations" := PStr ""]> ∅)))));
     timeline :=
       <["filing_date" := PNone]> (<["decision_date" := PNone]>
       (<["other_key_dates" := PList []]> ∅));
     hearings := [];
     pdf_text := None;
     summary := None;
     gemini_configured := false;
     gemini_error := None;
     user_gemini_key := "";
     uploaded_file_id := None |}.

Definition set_case_details v s :=
  SessionState v (timeline s) (hearings s) (pdf_text s) (summary s)
    (gemini_configured s) (gemini_error s) (user_gemini_key s) (uploaded_file_id s).
Definition set_timeline v s :=
  SessionState (case_details s) v (hearings s) (pdf_text s) (summary s)
    (gemini_configured s) (gemini_error s) (user_gemini_key s) (uploaded_file_id s).
Definition set_hearings v s :=
  SessionState (case_details s) (timeline s) v (pdf_text s) (summary s)
    (gemini_configured s) (gemini_error s) (user_gemini_key s) (uploaded_file_id s).
Definition set_pdf_text v s :=
  SessionState (case_details s) (timeline s) (hearings s) v (summary s)
    (gemini_configured s) (gemini_error s) (user_gemini_key s) (uploaded_file_id s).
Definition set_summary v s :=
  SessionState (case_details s) (timeline s) (hearings s) (pdf_text s) v
    (gemini_configured s) (gemini_error s) (user_gemini_key s) (uploaded_file_id s).
Definition set_gemini_configured v s :=
  SessionState (case_details s) (timeline s) (hearings s) (pdf_text s) (summary s)
    v (gemini_error s) (user_gemini_key s) (uploaded_file_id s).
Definition set_gemini_error v s :=
  SessionState (case_details s) (timeline s) (hearings s) (pdf_text s) (summary s)
    (gemini_configured s) v (user_gemini_key s) (uploaded_file_id s).
Definition set_user_gemini_key v s :=
  SessionState (case_details s) (timeline s) (hearings s) (pdf_text s) (summary s)
    (gemini_configured s) (gemini_error s) v (uploaded_file_id s).
Definition set_uploaded_file_id v s :=
  SessionState (case_details s) (timeline s) (hearings s) (pdf_text s) (summary s)
    (gemini_configured s) (gemini_error s) (user_gemini_key s) v.

(** ** What a render pass does to the outside world *)

(** The handle returned by [genai.GenerativeModel(name)]. *)
Record model := Model { model_name : string }.

(** [st.sidebar.file_uploader]'s [UploadedFile]: its [file_id] and the bytes
    that [seek(0); read()] returns. *)
Record uploaded_file := UploadedFile { file_id : string; content : list Byte.byte }.

(** The object returned by [model.generate_content]. *)
Record response := Response {
  (** [response.parts]: the accessor raises [ValueError] unless the response
      has exactly one candidate (it has none when the prompt was blocked) *)
  parts : res (list string);
  (** [response.text]; the accessor can raise *)
  text : res string;
  (** [response.prompt_feedback]: raises, is falsy ([None]), or carries
      [block_reason] (the empty string when that is falsy) *)
  prompt_feedback : res (option string);
  (** [response.candidates and response.candidates[0].safety_ratings]:
      raises, is falsy ([None]), or the ratings *)
  candidate_ratings : res (option string)
}.

Inductive level := LSuccess | LInfo | LWarning | LError.
Inductive place := Sidebar | Main.

(** One constructor per user-visible message of the script, with the values
    interpolated into it. *)
Inductive message :=
| MUsingSecretsKey                      (* line 58 *)
| MUsingUserKey                         (* line 62 *)
| MKeyNeeded                            (* line 64 *)
| MConfiguring                          (* line 71 *)
| MConfigureFailed (e : string)         (* line 80 *)
| MReconfigureFailed (e : string)       (* line 92 *)
| MConfigError (e : string)             (* line 99 *)
| MExtractError (e : string)            (* line 131 *)
| MNotConfigured                        (* line 137 *)
| MNotEnoughText                        (* line 142 *)
| MTruncated (max_chars : Z)            (* line 150 *)
| MBlocked (block_reason safety_ratings : string)  (* line 198 *)
| MApiError (e : string)                (* line 202 *)
| MCheckKey                             (* line 205 *)
| MQuota                                (* line 207 *)
| MReading                              (* line 220 *)
| MExtracted (chars : Z)                (* line 227 *)
| MExtractFailed                        (* line 229 *)
| MViewerError (e : string)             (* line 242 *)
| MGenerating                           (* line 257 *)
| MSummaryFailed                        (* line 265 *)
| MTextMissing                          (* line 267 *)
| MConfigIssue                          (* line 269 *)
| MSummaryTitle                         (* line 274 *)
| MSummaryBody (s : string)             (* line 275 *)
| MRule                                 (* lines 276, 340 *)
| MFixConfig (e : string)               (* line 278 *)
| MExtractionFailedNoSummary            (* line 280 *)
| MConfigureAndUpload                   (* line 282 *)
| MClickToGenerate                      (* line 285 *)
| MAddedHearing (d : date)              (* line 320 *)
| MNeedDateAndSummary                   (* line 324 *)
| MNoHearings                           (* line 328 *)
| MHearingDate (i : Z) (d : date)       (* line 336 *)
| MSummaryLabel                         (* line 337 *)
| MHearingSummary (v : pyval)           (* line 339 *)
| MDisplayError (e : string)            (* line 342 *)
| MUploadToStart.                       (* line 353 *)

Inductive event :=
| Banner (p : place) (l : level) (m : message)   (* an alert that is shown *)
| Spinner (m : message)                          (* st.spinner *)
| Markdown (m : message)                         (* st.markdown *)
| Caption (m : message)                          (* st.caption *)
| TextInput (key : string) (value : pyval)       (* st.text_input / st.text_area *)
| DateInput (key : string) (value : option pyval) (* st.date_input *)
| Button (key : string) (disabled : bool)        (* st.button *)
| CallConfigure (api_key : string)               (* genai.configure *)
| CallGenerativeModel (name : string)            (* genai.GenerativeModel *)
| CallFitzOpen (stream : list Byte.byte)              (* fitz.open *)
| CallGenerateContent (m : model) (prompt : string)
    (safety_settings : list (string * string))   (* model.generate_content *)
| CallPdfViewer (input : list Byte.byte) (width height : Z). (* pdf_viewer *)

(** What one render pass receives: the widgets' return values (functions of
    the widget key and of the [value=] the script passes) and the outcome of
    each call to an external service. *)
Record inputs := Inputs {
  (** [st.secrets.get("GEMINI_API_KEY")] *)
  secrets_get : res (option string);
  text_input : string -> pyval -> string;
  text_area : string -> pyval -> string;
  (** [st.date_input]: a date, or [None]; [value] is [None] when the script
      passes no [value=] *)
  date_input : string -> option pyval -> option date;
  button : string -> bool -> bool;
  (** the upload widget's current file *)
  pdf_uploader : option uploaded_file;
  genai_configure : string -> res unit;
  genai_GenerativeModel : string -> res model;
  (** [fitz.open(stream=..)] and [load_page(i).get_text()] for each page in
      order: the pages' texts, or the first exception *)
  fitz_pages : list Byte.byte -> res (list string);
  generate_content : model -> string -> list (string * string) -> res response;
  pdf_viewer : list Byte.byte -> res unit
}.

(** ** The script monad: state, exceptions, emitted events *)

Record run (A : Type) := Run {
  value : res A;
  state_after : session_state;
  emitted : list event
}.
Arguments Run {A} value state_after emitted.
Arguments value {A} r.
Arguments state_after {A} r.
Arguments emitted {A} r.

Definition M (A : Type) : Type := session_state -> run A.

Definition ret {A} (a : A) : M A := fun s => Run (Ok a) s [].

Definition bind {A B} (m : M A) (k : A -> M B) : M B := fun s =>
  match m s with
  | Run (Ok a) s1 t1 =>
      match k a s1 with
      | Run v s2 t2 => Run v s2 (t1 ++ t2)
      end
  | Run (Raise e) s1 t1 => Run (Raise e) s1 t1
  end.

(** [try: body except Exception as e: handler(e)]; what the body wrote and
    emitted before raising stays. *)
Definition try_except {A} (body : M A) (handler : exn -> M A) : M A := fun s =>
  match body s with
  | Run (Ok a) s1 t1 => Run (Ok a) s1 t1
  | Run (Raise e) s1 t1 =>
      match handler e s1 with
      | Run v s2 t2 => Run v s2 (t1 ++ t2)
      end
  end.

Definition get : M session_state := fun s => Run (Ok s) s [].
Definition modify (f : session_state -> session_state) : M unit :=
  fun s => Run (Ok tt) (f s) [].
Definition emit (e : event) : M unit := fun s => Run (Ok tt) s [e].
(** An external call: emitted, then its outcome. *)
Definition call {A} (e : event) (outcome : res A) : M A :=
  fun s => Run outcome s [e].
Definition lift {A} (r : res A) : M A := fun s => Run r s [].

(** Streamlit shows an alert with an [icon=] only if the icon is exactly one
    emoji: [validate_emoji] raises [StreamlitAPIException] on anything else.
    The emoji table is Streamlit's, not the script's; what the model keeps of
    it is that no emoji is empty or begins with a space, which decides every
    icon the script uses. *)
Definition is_emoji (icon : string) : bool :=
  match icon with
  | EmptyString => false
  | String c _ => negb (Ascii.eqb c " ")
  end.

Definition not_an_emoji (icon : string) : exn :=
  Exn ("The value " +:+ String "034" icon +:+ String "034"
         " is not a valid emoji. Shortcodes are not allowed, please use a single character instead.").

(** [st.success], [st.info], [st.warning] and [st.error] called with
    [icon=icon], in the sidebar or in the main area.  The icon is validated
    before anything is shown. *)
Definition alert (p : place) (l : level) (m : message) (icon : string) : M unit :=
  if is_emoji icon then emit (Banner p l m) else lift (Raise (not_an_emoji icon)).

Declare Scope py_scope.
Delimit Scope py_scope with py.
Notation "'let*' x ':=' m 'in' k" := (bind m (fun x => k))
  (at level 10, x name, m at level 100, k at level 200) : py_scope.
Notation "m ';;;' k" := (bind m (fun _ => k))
  (at level 100, k at level 200, right associativity) : py_scope.
Local Open Scope py_scope.

(** [for x in l: body x] *)
Fixpoint for_each {A} (l : list A) (body : A -> M unit) : M unit :=
  match l with
  | [] => ret tt
  | x :: l' => body x ;;; for_each l' body
  end.

(** ** Gemini API key and configuration (lines 33-99) *)

Definition model_id : string := "gemini-1.5-flash-latest".

(** Lines 35-65: returns [api_key_to_use]. *)
Definition resolve_api_key (inp : inputs) : M (option string) :=
  let gemini_api_key_from_secrets :=
    match secrets_get inp with
    | Ok v => v
    | Raise _ => None
    end in
  let* s := get in
  emit (TextInput "gemini_key_input" (PStr (user_gemini_key s))) ;;;
  modify (set_user_gemini_key
            (text_input inp "gemini_key_input" (PStr (user_gemini_key s)))) ;;;
  let* s := get in
  if opt_truthy gemini_api_key_from_secrets then
    alert Sidebar LSuccess MUsingSecretsKey "㊙️" ;;;
    ret gemini_api_key_from_secrets
  else if str_truthy (user_gemini_key s) then
    alert Sidebar LInfo MUsingUserKey "👤" ;;;
    ret (Some (user_gemini_key s))
  else
    emit (Banner Sidebar LWarning MKeyNeeded) ;;;
    modify (set_gemini_configured false) ;;;
    ret None.

(** Lines 69-99: returns [gemini_model]. *)
Definition configure_gemini (inp : inputs) (api_key_to_use : option string)
  : M (option model) :=
  let key := default "" api_key_to_use in
  let* s := get in
  if opt_truthy api_key_to_use && negb (gemini_configured s)
     && bool_decide (gemini_error s = None) then
    try_except
      (emit (Spinner MConfiguring) ;;;
       call (CallConfigure key) (genai_configure inp key) ;;;
       let* gemini_model :=
         call (CallGenerativeModel model_id) (genai_GenerativeModel inp model_id) in
       modify (set_gemini_configured true) ;;;
       modify (set_gemini_error None) ;;;
       ret (Some gemini_model))
      (fun e =>
         emit (Banner Sidebar LError (MConfigureFailed (str_of_exn e))) ;;;
         modify (set_gemini_configured false) ;;;
         modify (set_gemini_error (Some (str_of_exn e))) ;;;
         ret None)
  else if gemini_configured s && opt_truthy api_key_to_use then
    try_except
      (call (CallConfigure key) (genai_configure inp key) ;;;
       let* gemini_model :=
         call (CallGenerativeModel model_id) (genai_GenerativeModel inp model_id) in
       ret (Some gemini_model))
      (fun e =>
         emit (Banner Sidebar LError (MReconfigureFailed (str_of_exn e))) ;;;
         modify (set_gemini_configured false) ;;;
         modify (set_gemini_error (Some (str_of_exn e))) ;;;
         ret None)
  else if opt_truthy (gemini_error s) then
    emit (Banner Sidebar LError (MConfigError (default "" (gemini_error s)))) ;;;
    ret None
  else ret None.

(** ** File upload (lines 104-116, 120-132, 215-229) *)

(** The uploader's [on_change] callback (lines 109-115); [widget] is
    [st.session_state.pdf_uploader], the widget's new value. *)
Definition on_change_pdf_uploader (widget : option uploaded_file)
  (s : session_state) : session_state :=
  match widget with
  | None => set_uploaded_file_id None (set_summary None (set_pdf_text None s))
  | Some _ => s
  end.

Definition extract_text_from_pdf (inp : inputs) (file_bytes : list Byte.byte)
  : M (option string) :=
  try_except
    (let* pages := call (CallFitzOpen file_bytes) (fitz_pages inp file_bytes) in
     ret (Some (foldl (fun text page => text +:+ page) "" pages)))
    (fun e =>
       alert Main LError (MExtractError (str_of_exn e)) "📄" ;;;
       ret None).

(** Lines 216-229. *)
Definition process_upload (inp : inputs) (f : uploaded_file) : M unit :=
  let current_file_id := file_id f in
  let* s := get in
  if bool_decide (pdf_text s = None)
     || negb (bool_decide (Some current_file_id = uploaded_file_id s)) then
    emit (Spinner MReading) ;;;
    let pdf_bytes_for_text := content f in
    let* extracted := extract_text_from_pdf inp pdf_bytes_for_text in
    modify (set_pdf_text extracted) ;;;
    modify (set_summary None) ;;;
    modify (set_uploaded_file_id (Some current_file_id)) ;;;
    let* s := get in
    if opt_truthy (pdf_text s) then
      alert Sidebar LSuccess (MExtracted (len (default "" (pdf_text s)))) "📄"
    else
      alert Sidebar LError MExtractFailed "⚠️"
  else ret tt.

(** Lines 236-242.  The icon of the handler's message is not an emoji: when
    the viewer fails, [st.error] raises inside the handler and the exception
    leaves the block. *)
Definition show_pdf (inp : inputs) (f : uploaded_file) : M unit :=
  try_except
    (let pdf_bytes_for_viewer := content f in
     call (CallPdfViewer pdf_bytes_for_viewer 700 800)
          (pdf_viewer inp pdf_bytes_for_viewer))
    (fun e => alert Main LError (MViewerError (str_of_exn e)) " R🖼️").

(** ** Summarizer (lines 134-208) *)

(** [==] and [is None] on these values are decidable. *)
#[global] Instance date_eq_dec : EqDecision date.
Proof. solve_decision. Defined.
#[global] Instance pyval_eq_dec : EqDecision pyval.
Proof. solve_decision. Defined.
#[global] Instance model_eq_dec : EqDecision model.
Proof. solve_decision. Defined.

Definition max_chars : Z := 100000.

(** The f-string of lines 153-167, before and after [{truncated_text}]. *)
Definition prompt_head : string := "
    Please provide a concise executive summary of the following legal judgement text. Focus specifically on:
    1.  The primary legal question(s) or issue(s) the court addressed.
    2.  The court's main conclusion or holding on those issues.
    3.  The core legal reasoning or principles applied by the court to reach the conclusion.
    4.  The final disposition or outcome of the case (e.g., affirmed, reversed, remanded).

    Keep the summary objective, factual, and suitable for a legal professional who needs a quick understanding of the case's essence. Avoid opinions or interpretations not explicitly stated in the text. Use clear and precise legal language where appropriate. Aim for 3-5 paragraphs.

    Text to summarize:
    ---
    ".

Definition prompt_tail : string := "
    ---
    Summary:
    ".

Definition build_prompt (truncated_text : string) : string :=
  prompt_head +:+ truncated_text +:+ prompt_tail.

Definition safety_settings : list (string * string) :=
  [ ("HARM_CATEGORY_HARASSMENT", "BLOCK_MEDIUM_AND_ABOVE");
    ("HARM_CATEGORY_HATE_SPEECH", "BLOCK_MEDIUM_AND_ABOVE");
    ("HARM_CATEGORY_SEXUALLY_EXPLICIT", "BLOCK_MEDIUM_AND_ABOVE");
    ("HARM_CATEGORY_DANGEROUS_CONTENT", "BLOCK_MEDIUM_AND_ABOVE") ].

(** Lines 189-197: [(block_reason, safety_ratings)]; an exception while
    reading the feedback keeps what was assigned before it. *)
Definition block_details (r : response) : string * string :=
  match prompt_feedback r with
  | Raise _ => ("Unknown", "N/A")
  | Ok feedback =>
      let block_reason :=
        match feedback with
        | None => "Unknown"
        | Some reason => if str_truthy reason then reason else "Not specified"
        end in
      match candidate_ratings r with
      | Ok (Some ratings) => (block_reason, ratings)
      | Ok None | Raise _ => (block_reason, "N/A")
      end
  end.

(** Lines 134-208.  [response.parts] is read inside the [try] block, so an
    exception of the accessor reaches the handler of line 201 like one of
    the call.  The icon of the quota hint (line 207) is not an emoji:
    [st.error] raises there, inside the handler, and the exception leaves
    the function. *)
Definition summarize_with_gemini (inp : inputs)
  (text_to_summarize : option string) (model : option model) : M (option string) :=
  let txt := default "" text_to_summarize in
  let mdl := default (Model "") model in
  let* s := get in
  if negb (gemini_configured s) || bool_decide (model = None) then
    alert Main LWarning MNotConfigured "⚠️" ;;;
    ret None
  else if negb (opt_truthy text_to_summarize) || (len txt <? 50) then
    alert Main LWarning MNotEnoughText "⚠️" ;;;
    ret None
  else
    let truncated_text := str_take max_chars txt in
    (if len txt >? max_chars
     then alert Main LInfo (MTruncated max_chars) "ℹ️"
     else ret tt) ;;;
    let prompt := build_prompt truncated_text in
    try_except
      (let* response :=
         call (CallGenerateContent mdl prompt safety_settings)
              (generate_content inp mdl prompt safety_settings) in
       let* response_parts := lift (parts response) in
       match response_parts with
       | _ :: _ =>
           let* t := lift (text response) in
           ret (Some t)
       | [] =>
           let '(block_reason, safety_ratings) := block_details response in
           alert Main LError (MBlocked block_reason safety_ratings) "🚫" ;;;
           ret None
       end)
      (fun e =>
         alert Main LError (MApiError (str_of_exn e)) "🔥" ;;;
         (if str_contains "API key not valid" (str_of_exn e)
          then alert Main LError MCheckKey "🔑"
          else if str_contains "quota" (str_lower (str_of_exn e))
          then alert Main LError MQuota " R📊"
          else ret tt) ;;;
         ret None).

(** Line 251. *)
Definition summarize_button_disabled (s : session_state) : bool :=
  negb (gemini_configured s) || negb (opt_truthy (pdf_text s)).

(** Lines 254-269: the "Generate Summary with Gemini" button. *)
Definition generate_summary (inp : inputs) (gemini_model : option model) : M unit :=
  let* s := get in
  emit (Button "Generate Summary with Gemini" (summarize_button_disabled s)) ;;;
  if button inp "Generate Summary with Gemini" (summarize_button_disabled s) then
    if negb (bool_decide (gemini_model = None)) && opt_truthy (pdf_text s) then
      emit (Spinner MGenerating) ;;;
      let* summary_result := summarize_with_gemini inp (pdf_text s) gemini_model in
      if opt_truthy summary_result then
        modify (set_summary summary_result)
      else
        alert Main LWarning MSummaryFailed "⚠️"
    else if negb (opt_truthy (pdf_text s)) then
      alert Main LWarning MTextMissing "📄"
    else
      alert Main LError MConfigIssue "⚙️"
  else ret tt.

(** Lines 273-285; [disabled] is [summarize_button_disabled] as computed on
    line 251, before the button ran. *)
Definition show_summary (disabled : bool) : M unit :=
  let* s := get in
  if opt_truthy (summary s) then
    emit (Markdown MSummaryTitle) ;;;
    emit (Markdown (MSummaryBody (default "" (summary s)))) ;;;
    emit (Markdown MRule)
  else if disabled && opt_truthy (gemini_error s) then
    alert Main LWarning (MFixConfig (default "" (gemini_error s))) "🔑"
  else if disabled && negb (opt_truthy (pdf_text s)) then
    alert Main LWarning MExtractionFailedNoSummary "📄"
  else if disabled then
    alert Main LInfo MConfigureAndUpload "💡"
  else if negb disabled && negb (opt_truthy (summary s)) then
    alert Main LInfo MClickToGenerate "🤖"
  else ret tt.

(** ** Manual entry (lines 290-342) *)

(** One line of 291-296: [case_details[field] = widget(value=
    case_details.get(field, default), key=key)]. *)
Definition edit_case_text (widget : string -> pyval -> string)
  (field key : string) : M unit :=
  let* s := get in
  let shown := dict_get (case_details s) field (PStr "") in
  emit (TextInput key shown) ;;;
  modify (fun s => set_case_details
            (<[field := PStr (widget key shown)]> (case_details s)) s).

Definition edit_case_details (inp : inputs) : M unit :=
  edit_case_text (text_input inp) "name" "case_name" ;;;
  edit_case_text (text_input inp) "number" "case_number" ;;;
  edit_case_text (text_input inp) "court" "case_court" ;;;
  edit_case_text (text_input inp) "judges" "case_judges" ;;;
  (let* s := get in
   let shown := dict_get (case_details s) "judgement_date" PNone in
   emit (DateInput "case_judgement_date" (Some shown)) ;;;
   modify (fun s => set_case_details
             (<["judgement_date" :=
                  of_date (date_input inp "case_judgement_date" (Some shown))]>
                (case_details s)) s)) ;;;
  edit_case_text (text_area inp) "citations" "case_citations".

(** Lines 301-302: the value the decision-date field is pre-filled with. *)
Definition timeline_decision_date (s : session_state) : pyval :=
  let default_decision_date := dict_get (case_details s) "judgement_date" PNone in
  dict_get (timeline s) "decision_date" default_decision_date.

(** Lines 299-305. *)
Definition edit_timeline (inp : inputs) : M unit :=
  let* s := get in
  let decision_value := timeline_decision_date s in
  let filing_value := dict_get (timeline s) "filing_date" PNone in
  emit (DateInput "timeline_filing" (Some filing_value)) ;;;
  modify (fun s => set_timeline
            (<["filing_date" :=
                 of_date (date_input inp "timeline_filing" (Some filing_value))]>
               (timeline s)) s) ;;;
  emit (DateInput "timeline_decision" (Some decision_value)) ;;;
  modify (fun s => set_timeline
            (<["decision_date" :=
                 of_date (date_input inp "timeline_decision" (Some decision_value))]>
               (timeline s)) s).

(** [v.strftime('%Y-%m-%d')]: only a date has the method; the message
    constructors keep the date itself. *)
Definition strftime (v : pyval) : res date :=
  match v with
  | PDate d => Ok d
  | _ => Raise (Exn "object has no attribute 'strftime'")
  end.

(** The record appended on line 319. *)
Definition hearing_record (d : pyval) (summary_text : string) : pyobj :=
  ODict (<["date" := d]> (<["summary" := PStr summary_text]> ∅)).

(** Lines 311-324.  The guard of lines 317-318 (re-create the list when the
    key is missing or holds something else) never fires: [hearings] is
    initialised to a list on lines 15-28 and only ever appended to. *)
Definition add_hearing (inp : inputs) : M unit :=
  emit (DateInput "new_hearing_date" None) ;;;
  let new_hearing_date := of_date (date_input inp "new_hearing_date" None) in
  emit (TextInput "new_hearing_summary" (PStr "")) ;;;
  let new_hearing_summary := text_area inp "new_hearing_summary" (PStr "") in
  emit (Button "add_hearing_btn" false) ;;;
  if button inp "add_hearing_btn" false then
    if truthy new_hearing_date && str_truthy new_hearing_summary then
      modify (fun s => set_hearings
                (hearings s ++ [hearing_record new_hearing_date new_hearing_summary]) s) ;;;
      let* d := lift (strftime new_hearing_date) in
      emit (Banner Main LSuccess (MAddedHearing d))
    else
      emit (Banner Main LWarning MNeedDateAndSummary)
  else ret tt.

(** *** Display of the recorded hearings (lines 326-342) *)

(** [a < b] on dates, strings and lists of dates; [TypeError] otherwise. *)
Fixpoint dates_ltb (a b : list date) : bool :=
  match a, b with
  | [], [] => false
  | [], _ :: _ => true
  | _ :: _, [] => false
  | x :: a', y :: b' => if date_eqb x y then dates_ltb a' b' else date_ltb x y
  end.

Definition py_lt (a b : pyval) : res bool :=
  match a, b with
  | PDate x, PDate y => Ok (date_ltb x y)
  | PStr x, PStr y => Ok (String.ltb x y)
  | PList x, PList y => Ok (dates_ltb x y)
  | _, _ => Raise (Exn "'<' not supported between instances")
  end.

Section Sorted.
Context {A : Type}.

(** Insert [x], which came before every element of [l] in the input, into
    the sorted [l]: it passes exactly the elements that are smaller. *)
Fixpoint insert_keyed (x : pyval * A) (l : list (pyval * A))
  : res (list (pyval * A)) :=
  match l with
  | [] => Ok [x]
  | y :: l' =>
      match py_lt (fst y) (fst x) with
      | Raise e => Raise e
      | Ok true =>
          match insert_keyed x l' with
          | Ok r => Ok (y :: r)
          | Raise e => Raise e
          end
      | Ok false => Ok (x :: y :: l')
      end
  end.

Fixpoint sort_keyed (l : list (pyval * A)) : res (list (pyval * A)) :=
  match l with
  | [] => Ok []
  | x :: l' =>
      match sort_keyed l' with
      | Ok r => insert_keyed x r
      | Raise e => Raise e
      end
  end.

Fixpoint decorate (key : A -> res pyval) (l : list A) : res (list (pyval * A)) :=
  match l with
  | [] => Ok []
  | x :: l' =>
      match key x with
      | Raise e => Raise e
      | Ok k =>
          match decorate key l' with
          | Ok r => Ok ((k, x) :: r)
          | Raise e => Raise e
          end
      end
  end.

(** The builtin [sorted(l, key=key)], by its documented contract: a new
    list, the key computed once per element, elements compared with [<] on
    their keys only, ascending, and stable.  An exception of the key
    function or of a comparison propagates. *)
Definition sorted (l : list A) (key : A -> res pyval) : res (list A) :=
  match decorate key l with
  | Raise e => Raise e
  | Ok keyed =>
      match sort_keyed keyed with
      | Ok r => Ok (snd <$> r)
      | Raise e => Raise e
      end
  end.
End Sorted.

(** [h['date']] *)
Definition item_date (h : pyobj) : res pyval :=
  match h with
  | ODict d =>
      match d !! "date" with
      | Some v => Ok v
      | None => Raise (Exn "'date'")
      end
  | OVal _ => Raise (Exn "object is not subscriptable")
  end.

(** [isinstance(h, dict) and h.get('date')] (line 332) *)
Definition has_date (h : pyobj) : bool :=
  match h with
  | ODict d => truthy (dict_get d "date" PNone)
  | OVal _ => false
  end.

Definition valid_hearings (l : list pyobj) : list pyobj :=
  filter (fun h => has_date h = true) l.

Definition sorted_hearings (l : list pyobj) : res (list pyobj) :=
  sorted (valid_hearings l) item_date.

(** [hearing.get('summary', 'N/A')] *)
Definition item_summary (h : pyobj) : pyval :=
  match h with
  | ODict d => dict_get d "summary" (PStr "N/A")
  | OVal _ => PStr "N/A"
  end.

(** The body of the loop, lines 336-340, for the pair [(i, hearing)]. *)
Definition show_hearing (row : nat * pyobj) : M unit :=
  let '(i, hearing) := row in
  let* date_value := lift (item_date hearing) in
  let* d := lift (strftime date_value) in
  emit (Markdown (MHearingDate (Z.of_nat i + 1) d)) ;;;
  emit (Markdown MSummaryLabel) ;;;
  emit (Caption (MHearingSummary (item_summary hearing))) ;;;
  emit (Markdown MRule).

(** [enumerate(l)] *)
Definition enumerate {A} (l : list A) : list (nat * A) :=
  imap (fun i x => (i, x)) l.

(** Lines 327-342.  The icon of the handler's message (line 342) is not an
    emoji: whatever the [try] block raises, [st.error] raises in its place. *)
Definition display_hearings : M unit :=
  let* s := get in
  match hearings s with
  | [] => emit (Banner Main LInfo MNoHearings)
  | _ :: _ =>
      try_except
        (let* sorted_list := lift (sorted_hearings (hearings s)) in
         for_each (enumerate sorted_list) show_hearing)
        (fun e => alert Main LError (MDisplayError (str_of_exn e)) " R⚠️")
  end.

(** ** One render pass (the whole script, lines 30-360) *)

(** Lines 288-342: the manual-entry expanders. *)
Definition manual_entry (inp : inputs) : M unit :=
  edit_case_details inp ;;;
  edit_timeline inp ;;;
  add_hearing inp ;;;
  display_hearings.

(** Lines 245-342: the right-hand column. *)
Definition analysis_and_details (inp : inputs) (gemini_model : option model)
  : M unit :=
  let* s := get in
  let disabled := summarize_button_disabled s in
  generate_summary inp gemini_model ;;;
  show_summary disabled ;;;
  manual_entry inp.

(** Lines 215-353. *)
Definition main_area (inp : inputs) (gemini_model : option model) : M unit :=
  match pdf_uploader inp with
  | Some uploaded =>
      process_upload inp uploaded ;;;
      show_pdf inp uploaded ;;;
      analysis_and_details inp gemini_model
  | None => emit (Banner Main LInfo MUploadToStart)
  end.

Definition render_pass (inp : inputs) : M unit :=
  let* api_key_to_use := resolve_api_key inp in
  let* gemini_model := configure_gemini inp api_key_to_use in
  main_area inp gemini_model.

(** The session after a sequence of render passes, each with its own inputs.
    A pass that ends in an uncaught exception keeps what it had written. *)
Definition run_passes (passes : list inputs) (s : session_state) : session_state :=
  foldl (fun s inp => state_after (render_pass inp s)) s passes.

(** The events of one kind in a trace. *)
Definition is_extraction (e : event) : bool :=
  match e with CallFitzOpen _ => true | _ => false end.

Definition is_generation (e : event) : bool :=
  match e with CallGenerateContent _ _ _ => true | _ => false end.

Definition count_events (p : event -> bool) (trace : list event) : nat :=
  length (filter (fun e => p e = true) trace).

(** An idle user and well-behaved services: every widget returns the value
    it is shown, no button is pressed, no file is uploaded, no call fails. *)
Definition idle : inputs :=
  {| secrets_get := Ok None;
     text_input := fun _ v => match v with PStr t => t | _ => "" end;
     text_area := fun _ v => match v with PStr t => t | _ => "" end;
     date_input := fun _ v => match v with Some (PDate d) => Some d | _ => None end;
     button := fun _ _ => false;
     pdf_uploader := None;
     genai_configure := fun _ => Ok tt;
     genai_GenerativeModel := fun name => Ok (Model name);
     fitz_pages := fun _ => Ok [];
     generate_content := fun _ _ _ =>
       Ok (Response (Ok ["summary"]) (Ok "summary") (Ok None) (Ok None));
     pdf_viewer := fun _ => Ok tt |}.

(** * Vocabulary of the properties *)

(** ** Computations in [M] *)

(** Whatever [m] does, the state it leaves is [R]-related to the state it
    found, also when it raises. *)
Definition respects (R : relation session_state) {A} (m : M A) : Prop :=
  forall s, R s (state_after (m s)).

(** [m] emits no event of the kind [p]. *)
Definition silent (p : event -> bool) {A} (m : M A) : Prop :=
  forall s, count_events p (emitted (m s)) = 0%nat.

(** [f] reads the same in both states. *)
Definition same {X} (f : session_state -> X) : relation session_state :=
  fun s s' => f s' = f s.

(** [P] is not lost. *)
Definition stays (P : session_state -> Prop) : relation session_state :=
  fun s s' => P s -> P s'.

(** [m] never ends in an exception. *)
Definition total {A} (m : M A) : Prop :=
  forall s, exists a, value (m s) = Ok a.

(** The sessions the application can be in: the initial one, and what a
    render pass or the uploader's callback makes of one. *)
Inductive reachable : session_state -> Prop :=
| reachable_initial : reachable default_session_state
| reachable_pass inp s :
    reachable s -> reachable (state_after (render_pass inp s))
| reachable_on_change widget s :
    reachable s -> reachable (on_change_pdf_uploader widget s).

(** ** Configuration, summarizer, upload *)

(** The configuration of an earlier pass failed and is unresolved. *)
Definition config_failed (msg : string) (s : session_state) : Prop :=
  gemini_configured s = false /\ gemini_error s = Some msg.

(** The SDK refuses the key: [genai.configure] raises, or
    [genai.GenerativeModel] does. *)
Definition configuration_raises (inp : inputs) (key : string) (e : exn) : Prop :=
  genai_configure inp key = Raise e \/
  (genai_configure inp key = Ok tt /\ genai_GenerativeModel inp model_id = Raise e).

(** The request for a summary of [t] ends in the exception [e]: the remote
    call raises it, or reading the response's parts or text does. *)
Definition remote_error (inp : inputs) (m : model) (t : string) (e : exn) : Prop :=
  generate_content inp m (build_prompt (str_take max_chars t)) safety_settings
    = Raise e \/
  exists r,
    generate_content inp m (build_prompt (str_take max_chars t)) safety_settings
      = Ok r /\
    (parts r = Raise e \/ (exists p ps, parts r = Ok (p :: ps)) /\ text r = Raise e).

(** The handler of lines 201-208 adds the quota hint to the message of [e]:
    the message does not hold "API key not valid" and, in lower case, holds
    "quota". *)
Definition gets_quota_hint (e : exn) : bool :=
  negb (str_contains "API key not valid" (str_of_exn e))
  && str_contains "quota" (str_lower (str_of_exn e)).

(** The ways a summarization attempt fails (spec, 4.3): the client is not
    configured, the text is insufficient, the response is blocked by the
    safety filter (it has no parts), or the remote call, or reading the
    response's parts or text, raises [e]. *)
Inductive summarization_fails (inp : inputs) (txt : option string)
  (mdl : option model) (s : session_state) : Prop :=
| fails_not_configured :
    gemini_configured s = false \/ mdl = None ->
    summarization_fails inp txt mdl s
| fails_insufficient_input :
    txt = None \/ len (default "" txt) < 50 ->
    summarization_fails inp txt mdl s
| fails_safety_block t m r :
    txt = Some t -> mdl = Some m ->
    generate_content inp m (build_prompt (str_take max_chars t)) safety_settings
      = Ok r ->
    parts r = Ok [] ->
    summarization_fails inp txt mdl s
| fails_remote_error t m e :
    txt = Some t -> mdl = Some m ->
    remote_error inp m t e ->
    summarization_fails inp txt mdl s.

(** The icon of the quota hint, line 207: a space, the letter R and a bar
    chart. *)
Definition quota_icon : string := " R📊".

(** The icon of the viewer's error message, line 242: a space, the letter R
    and a framed picture. *)
Definition viewer_icon : string := " R🖼️".

(** Started in a state of [P], [m] raises nothing but exceptions of [E]. *)
Definition raises_only (P : session_state -> Prop) (E : exn -> Prop)
  {A} (m : M A) : Prop :=
  forall s e, P s -> value (m s) = Raise e -> E e.

(** What stops a render pass: the viewer fails and the icon of its error
    message is refused, or a request for a summary ends in an exception that
    gets the quota hint and the icon of the hint is refused. *)
Definition pass_stopped (inp : inputs) (e : exn) : Prop :=
  (e = not_an_emoji viewer_icon /\
   exists f e0, pdf_uploader inp = Some f /\ pdf_viewer inp (content f) = Raise e0) \/
  (e = not_an_emoji quota_icon /\
   exists m t e0, remote_error inp m t e0 /\ gets_quota_hint e0 = true).

(** What the single extraction attempt yields: the pages' texts in order, or
    nothing when PyMuPDF raises. *)
Definition extraction_result (inp : inputs) (f : uploaded_file) : option string :=
  match fitz_pages inp (content f) with
  | Ok pages => Some (foldl (fun text page => text +:+ page) "" pages)
  | Raise _ => None
  end.

(** The two columns of lines 231-342: the viewer, then the analysis and the
    manual entries. *)
Definition columns (inp : inputs) (f : uploaded_file)
  (gemini_model : option model) : M unit :=
  show_pdf inp f ;;; analysis_and_details inp gemini_model.

(** [m] leaves the stored summary as it is unless it sends a request. *)
Definition keeps_or_requests {A} (m : M A) : Prop :=
  forall s,
    summary (state_after (m s)) = summary s \/
    (0 < count_events is_generation (emitted (m s)))%nat.

(** Every field of the session but [summary]. *)
Definition other_than_summary (s : session_state) :=
  (case_details s, timeline s, hearings s, pdf_text s,
   gemini_configured s, gemini_error s, user_gemini_key s, uploaded_file_id s).

(** Every field of the session but [hearings]. *)
Definition other_than_hearings (s : session_state) :=
  (case_details s, timeline s, pdf_text s, summary s,
   gemini_configured s, gemini_error s, user_gemini_key s, uploaded_file_id s).

(** The three document fields. *)
Definition document (s : session_state)
  : option string * option string * option string :=
  (pdf_text s, summary s, uploaded_file_id s).

(** ** Hearings *)

(** [a <= b] on dates, as [sorted] sees it: not [b < a]. *)
Definition date_le (a b : date) : Prop := date_ltb b a = false.

(** The pair carries a date as its key. *)
Definition date_keyed {A} (x : pyval * A) : Prop := exists d, x.1 = PDate d.

(** The keys are dates, in ascending order. *)
Definition key_le {A} (x y : pyval * A) : Prop :=
  exists a b, x.1 = PDate a /\ y.1 = PDate b /\ date_le a b.

(** The calendar date of a record, when it has one: the record is a [dict]
    whose ['date'] is a [date]. *)
Definition well_formed_date (h : pyobj) : option date :=
  match h with
  | ODict d =>
      match d !! "date" with
      | Some (PDate x) => Some x
      | _ => None
      end
  | OVal _ => None
  end.

(** Every record that passes the filter of line 332 carries a calendar date
    (and not a string or a list, which are truthy too). *)
Definition dates_typed (l : list pyobj) : Prop :=
  Forall (fun h => has_date h = true -> is_Some (well_formed_date h)) l.

(** [a] is displayed no later than [b]. *)
Definition hearing_le (a b : pyobj) : Prop :=
  exists x y, well_formed_date a = Some x /\ well_formed_date b = Some y /\
              date_le x y.

(** The rows of the list as the user sees them: number, date, summary. *)
Fixpoint shown_rows (trace : list event) : list (Z * date * pyval) :=
  match trace with
  | [] => []
  | Markdown (MHearingDate i d) :: rest =>
      match rest with
      | Markdown MSummaryLabel :: Caption (MHearingSummary v) :: _ =>
          (i, d, v) :: shown_rows rest
      | _ => shown_rows rest
      end
  | _ :: rest => shown_rows rest
  end.

(** The rows for the records [l], numbered from [n + 1]. *)
Fixpoint numbered_rows (n : nat) (l : list pyobj) : list (Z * date * pyval) :=
  match l with
  | [] => []
  | h :: l' =>
      match well_formed_date h with
      | Some d => (Z.of_nat n + 1, d, item_summary h) :: numbered_rows (S n) l'
      | None => numbered_rows (S n) l'
      end
  end.

(** The key of each pair is the date of its record. *)
Definition keyed_by_date (p : pyval * pyobj) : Prop :=
  exists d, p.1 = PDate d /\ well_formed_date p.2 = Some d.

(** The events of the loop of lines 334-340 over [l], numbering from
    [n + 1]. *)
Fixpoint hearing_events (n : nat) (l : list pyobj) : list event :=
  match l with
  | [] => []
  | h :: l' =>
      match well_formed_date h with
      | Some d =>
          Markdown (MHearingDate (Z.of_nat n + 1) d)
          :: Markdown MSummaryLabel
          :: Caption (MHearingSummary (item_summary h))
          :: Markdown MRule
          :: hearing_events (S n) l'
      | None => []
      end
  end.

(** ** Scenarios *)

(** The user types a key that the SDK rejects. *)
Definition rejected_key : inputs :=
  {| secrets_get := secrets_get idle;
     text_input := fun key v =>
       if String.eqb key "gemini_key_input" then "k-123" else text_input idle key v;
     text_area := text_area idle;
     date_input := date_input idle;
     button := button idle;
     pdf_uploader := None;
     genai_configure := fun _ => Raise (Exn "API key not valid");
     genai_GenerativeModel := genai_GenerativeModel idle;
     fitz_pages := fitz_pages idle;
     generate_content := generate_content idle;
     pdf_viewer := pdf_viewer idle |}.

(** An uploaded file. *)
Definition a_pdf : uploaded_file := UploadedFile "file-1" [].

(** A file is uploaded and the user picks 15 March 2024 as the date of
    judgement; nothing else is entered. *)
Definition pick_judgement_date : inputs :=
  {| secrets_get := secrets_get idle;
     text_input := text_input idle;
     text_area := text_area idle;
     date_input := fun key v =>
       if String.eqb key "case_judgement_date" then Some (Date 2024 3 15)
       else date_input idle key v;
     button := button idle;
     pdf_uploader := Some a_pdf;
     genai_configure := genai_configure idle;
     genai_GenerativeModel := genai_GenerativeModel idle;
     fitz_pages := fitz_pages idle;
     generate_content := generate_content idle;
     pdf_viewer := pdf_viewer idle |}.

(** The user fills in the hearing date [d] and a summary and presses "Add
    Hearing Summary". *)
Definition press_add_hearing (d : option date) (summary_text : string) : inputs :=
  {| secrets_get := secrets_get idle;
     text_input := text_input idle;
     text_area := fun key v =>
       if String.eqb key "new_hearing_summary" then summary_text
       else text_area idle key v;
     date_input := fun key v =>
       if String.eqb key "new_hearing_date" then d else date_input idle key v;
     button := fun key _ => String.eqb key "add_hearing_btn";
     pdf_uploader := Some a_pdf;
     genai_configure := genai_configure idle;
     genai_GenerativeModel := genai_GenerativeModel idle;
     fitz_pages := fitz_pages idle;
     generate_content := generate_content idle;
     pdf_viewer := pdf_viewer idle |}.

(** A text of 100,001 characters. *)
Definition long_text : string :=
  String.string_of_list_ascii (replicate (Z.to_nat 100001) "a"%char).

(** A session whose client is configured. *)
Definition configured_session : session_state :=
  set_gemini_configured true default_session_state.

(** "Generate Summary" is pressed and the safety filter blocks the
    response. *)
Definition blocked : inputs :=
  {| secrets_get := secrets_get idle;
     text_input := text_input idle;
     text_area := text_area idle;
     date_input := date_input idle;
     button := fun _ _ => true;
     pdf_uploader := Some a_pdf;
     genai_configure := genai_configure idle;
     genai_GenerativeModel := genai_GenerativeModel idle;
     fitz_pages := fitz_pages idle;
     generate_content := fun _ _ _ =>
       Ok (Response (Ok []) (Raise (Exn "no text")) (Ok (Some "SAFETY")) (Ok None));
     pdf_viewer := pdf_viewer idle |}.

(** A configured session that holds a long text and a summary of it. *)
Definition summarized_session : session_state :=
  set_summary (Some "An earlier summary.")
    (set_pdf_text (Some long_text) configured_session).

(** The uploaded PDF cannot be read. *)
Definition unreadable_pdf : inputs :=
  {| secrets_get := secrets_get idle;
     text_input := text_input idle;
     text_area := text_area idle;
     date_input := date_input idle;
     button := button idle;
     pdf_uploader := Some a_pdf;
     genai_configure := genai_configure idle;
     genai_GenerativeModel := genai_GenerativeModel idle;
     fitz_pages := fun _ => Raise (Exn "cannot open broken document");
     generate_content := generate_content idle;
     pdf_viewer := pdf_viewer idle |}.

(** Three hearings are entered, two of them held on the same day. *)
Definition three_hearings : session_state :=
  run_passes
    [ press_add_hearing (Some (Date 2024 5 2)) "Adjourned";
      press_add_hearing (Some (Date 2024 1 10)) "Admitted";
      press_add_hearing (Some (Date 2024 5 2)) "Arguments heard" ]
    default_session_state.

(** ** Further vocabulary *)

(** The calls that set the Gemini SDK up. *)
Definition is_sdk_setup (e : event) : bool :=
  match e with
  | CallConfigure _ | CallGenerativeModel _ => true
  | _ => false
  end.

(** The configured flag is up only while no error is stored. *)
Definition configured_without_error (s : session_state) : Prop :=
  gemini_configured s = true -> gemini_error s = None.

(** A stored summary is a non-empty text and belongs to a non-empty stored
    text; a stored text belongs to a tracked file. *)
Definition document_consistent (s : session_state) : Prop :=
  (summary s <> None ->
   opt_truthy (summary s) = true /\ opt_truthy (pdf_text s) = true) /\
  (pdf_text s <> None -> uploaded_file_id s <> None).

(** The hearings of [s] are still there in [s'], first and in their order. *)
Definition hearings_kept : relation session_state :=
  fun s s' => hearings s `prefix_of` hearings s'.

(** The summarizer gets as far as the request: the client is configured, a
    model is at hand and the text has at least 50 characters. *)
Definition ready_to_summarize (s : session_state) (txt : option string)
  (mdl : option model) : bool :=
  gemini_configured s && negb (bool_decide (mdl = None))
  && opt_truthy txt && negb (len (default "" txt) <? 50).

(** What the user has entered by hand. *)
Definition manual_entries (s : session_state)
  : gmap string pyval * gmap string pyval * list pyobj :=
  (case_details s, timeline s, hearings s).

(** A record as the handler of lines 314-321 builds it: a calendar date and
    a non-empty summary, and nothing else. *)
Definition complete_hearing (h : pyobj) : Prop :=
  exists d t, h = hearing_record (PDate d) t /\ t <> "".

(** The field [k] of [m] holds a string. *)
Definition text_field (m : gmap string pyval) (k : string) : Prop :=
  exists t, m !! k = Some (PStr t).

(** The field [k] of [m] holds a date or [None]. *)
Definition date_field (m : gmap string pyval) (k : string) : Prop :=
  exists d, m !! k = Some (of_date d).

(** The manual entries hold what their widgets accept as [value]. *)
Definition entries_typed (s : session_state) : Prop :=
  (text_field (case_details s) "name" /\
   text_field (case_details s) "number" /\
   text_field (case_details s) "court" /\
   text_field (case_details s) "judges" /\
   date_field (case_details s) "judgement_date" /\
   text_field (case_details s) "citations") /\
  (date_field (timeline s) "filing_date" /\
   date_field (timeline s) "decision_date").

(** The user leaves every widget as it is shown and presses no button. *)
Definition nothing_edited (inp : inputs) : Prop :=
  (forall key t, text_input inp key (PStr t) = t) /\
  (forall key t, text_area inp key (PStr t) = t) /\
  (forall key d, date_input inp key (Some (of_date d)) = d) /\
  (forall key disabled, button inp key disabled = false).

(** The manual entries are as they were, provided they were well typed. *)
Definition entries_kept : relation session_state :=
  fun s s' => entries_typed s -> manual_entries s' = manual_entries s.

(** The messages of the button handler and of the summarizer for a press
    that finds no text, no model handle or no configured client (lines
    136-138 and 266-269). *)
Definition is_fallback (e : event) : bool :=
  match e with
  | Banner Main LWarning MTextMissing
  | Banner Main LError MConfigIssue
  | Banner Main LWarning MNotConfigured => true
  | _ => false
  end.

(** The user types a key that the SDK accepts; no file is uploaded. *)
Definition accepted_key : inputs :=
  {| secrets_get := secrets_get idle;
     text_input := fun key v =>
       if String.eqb key "gemini_key_input" then "k-456" else text_input idle key v;
     text_area := text_area idle;
     date_input := date_input idle;
     button := button idle;
     pdf_uploader := None;
     genai_configure := genai_configure idle;
     genai_GenerativeModel := genai_GenerativeModel idle;
     fitz_pages := fitz_pages idle;
     generate_content := generate_content idle;
     pdf_viewer := pdf_viewer idle |}.

(** A readable two-page judgement is uploaded, the key is accepted and
    "Generate Summary" is pressed. *)
Definition judgement_text : string :=
  "IN THE HIGH COURT: the appeal is allowed and the order under challenge is set aside.".

Definition summarize_judgement : inputs :=
  {| secrets_get := secrets_get idle;
     text_input := fun key v =>
       if String.eqb key "gemini_key_input" then "k-456" else text_input idle key v;
     text_area := text_area idle;
     date_input := date_input idle;
     button := fun key _ => String.eqb key "Generate Summary with Gemini";
     pdf_uploader := Some a_pdf;
     genai_configure := genai_configure idle;
     genai_GenerativeModel := genai_GenerativeModel idle;
     fitz_pages := fun _ => Ok ["IN THE HIGH COURT: the appeal is allowed ";
                                "and the order under challenge is set aside."];
     generate_content := fun _ _ _ =>
       Ok (Response (Ok ["Appeal allowed."]) (Ok "Appeal allowed.") (Ok None) (Ok None));
     pdf_viewer := pdf_viewer idle |}.

(** A scanned judgement is uploaded: two pages, no text layer. *)
Definition scanned_pdf : inputs :=
  {| secrets_get := secrets_get idle;
     text_input := text_input idle;
     text_area := text_area idle;
     date_input := date_input idle;
     button := button idle;
     pdf_uploader := Some a_pdf;
     genai_configure := genai_configure idle;
     genai_GenerativeModel := genai_GenerativeModel idle;
     fitz_pages := fun _ => Ok [""; ""];
     generate_content := generate_content idle;
     pdf_viewer := pdf_viewer idle |}.

(** The same file stays in the uploader and the user touches nothing. *)
Definition look_at_pdf : inputs :=
  {| secrets_get := secrets_get idle;
     text_input := text_input idle;
     text_area := text_area idle;
     date_input := date_input idle;
     button := button idle;
     pdf_uploader := Some a_pdf;
     genai_configure := genai_configure idle;
     genai_GenerativeModel := genai_GenerativeModel idle;
     fitz_pages := fitz_pages idle;
     generate_content := generate_content idle;
     pdf_viewer := pdf_viewer idle |}.

(** A key is deployed in the secrets and the user types another one. *)
Definition two_keys : inputs :=
  {| secrets_get := Ok (Some "k-secret");
     text_input := fun key v =>
       if String.eqb key "gemini_key_input" then "k-456" else text_input idle key v;
     text_area := text_area idle;
     date_input := date_input idle;
     button := button idle;
     pdf_uploader := None;
     genai_configure := genai_configure idle;
     genai_GenerativeModel := genai_GenerativeModel idle;
     fitz_pages := fitz_pages idle;
     generate_content := generate_content idle;
     pdf_viewer := pdf_viewer idle |}.

(** The user presses "Generate Summary" whenever the button is enabled. *)
Definition press_generate : inputs :=
  {| secrets_get := secrets_get idle;
     text_input := fun key v =>
       if String.eqb key "gemini_key_input" then "k-456" else text_input idle key v;
     text_area := text_area idle;
     date_input := date_input idle;
     button := fun key disabled =>
       negb disabled && String.eqb key "Generate Summary with Gemini";
     pdf_uploader := Some a_pdf;
     genai_configure := genai_configure idle;
     genai_GenerativeModel := genai_GenerativeModel idle;
     fitz_pages := fun _ => Ok [judgement_text];
     generate_content := generate_content idle;
     pdf_viewer := pdf_viewer idle |}.

(** "Generate Summary" is pressed and the API answers that the quota is
    used up. *)
Definition quota_exceeded : inputs :=
  {| secrets_get := secrets_get idle;
     text_input := text_input idle;
     text_area := text_area idle;
     date_input := date_input idle;
     button := fun key _ => String.eqb key "Generate Summary with Gemini";
     pdf_uploader := Some a_pdf;
     genai_configure := genai_configure idle;
     genai_GenerativeModel := genai_GenerativeModel idle;
     fitz_pages := fun _ => Ok [judgement_text];
     generate_content := fun _ _ _ =>
       Raise (Exn "429 Quota exceeded for quota metric");
     pdf_viewer := pdf_viewer idle |}.

(** A file is uploaded and the viewer component fails. *)
Definition broken_viewer : inputs :=
  {| secrets_get := secrets_get idle;
     text_input := text_input idle;
     text_area := text_area idle;
     date_input := date_input idle;
     button := button idle;
     pdf_uploader := Some a_pdf;
     genai_configure := genai_configure idle;
     genai_GenerativeModel := genai_GenerativeModel idle;
     fitz_pages := fitz_pages idle;
     generate_content := generate_content idle;
     pdf_viewer := fun _ => Raise (Exn "component is not available") |}.

(** The three hearings, and before them a record without a date and a
    stray [None]. *)
Definition undated_among_hearings : session_state :=
  set_hearings
    (ODict (<["summary" := PStr "Date to be fixed"]> ∅) :: OVal PNone
       :: hearings three_hearings)
    three_hearings.

(** * Properties *)

(** ** Reasoning about computations in [M] *)

Section Respects.
Context (R : relation session_state) `{!PreOrder R}.

Lemma respects_ret {A} (a : A) : respects R (ret a).
Proof. intros s. simpl. reflexivity. Qed.

Lemma respects_get : respects R get.
Proof. intros s. simpl. reflexivity. Qed.

Lemma respects_emit e : respects R (emit e).
Proof. intros s. simpl. reflexivity. Qed.

Lemma respects_call {A} e (o : res A) : respects R (call e o).
Proof. intros s. simpl. reflexivity. Qed.

Lemma respects_lift {A} (o : res A) : respects R (lift o).
Proof. intros s. simpl. reflexivity. Qed.

(** An alert writes nothing, shown or not. *)
Lemma respects_alert pl l m icon : respects R (alert pl l m icon).
Proof. intros s. unfold alert. destruct (is_emoji icon); simpl; reflexivity. Qed.

Lemma respects_modify g : (forall s, R s (g s)) -> respects R (modify g).
Proof. intros H s. apply H. Qed.

Lemma respects_bind {A B} (m : M A) (k : A -> M B) :
  respects R m -> (forall a, respects R (k a)) -> respects R (bind m k).
Proof.
  intros Hm Hk s. unfold bind. specialize (Hm s).
  destruct (m s) as [[a|e] s1 t1]; simpl in *; [|done].
  specialize (Hk a s1). destruct (k a s1) as [v s2 t2]; simpl in *.
  by etrans.
Qed.

Lemma respects_try_except {A} (m : M A) (h : exn -> M A) :
  respects R m -> (forall e, respects R (h e)) -> respects R (try_except m h).
Proof.
  intros Hm Hh s. unfold try_except. specialize (Hm s).
  destruct (m s) as [[a|e] s1 t1]; simpl in *; [done|].
  specialize (Hh e s1). destruct (h e s1) as [v s2 t2]; simpl in *.
  by etrans.
Qed.

Lemma respects_for_each {A} (l : list A) (body : A -> M unit) :
  (forall x, respects R (body x)) -> respects R (for_each l body).
Proof.
  intros Hb. induction l as [|x l IH]; simpl.
  - apply respects_ret.
  - apply respects_bind; [apply Hb | by intros _].
Qed.
End Respects.

#[global] Instance same_preorder {X} (f : session_state -> X) : PreOrder (same f).
Proof. split; unfold same; [by intros s | intros a b c; congruence]. Qed.

#[global] Instance stays_preorder P : PreOrder (stays P).
Proof. split; unfold stays; [by intros s | intros a b c; auto]. Qed.

Section Traces.
Context (p : event -> bool).

Lemma count_events_app t1 t2 :
  count_events p (t1 ++ t2) = (count_events p t1 + count_events p t2)%nat.
Proof. unfold count_events. by rewrite filter_app, length_app. Qed.

Lemma count_events_cons e t :
  count_events p (e :: t)
  = ((if p e then 1 else 0) + count_events p t)%nat.
Proof.
  unfold count_events. destruct (p e) eqn:He.
  - by rewrite filter_cons_True.
  - rewrite filter_cons_False; [done | by rewrite He].
Qed.

Lemma silent_ret {A} (a : A) : silent p (ret a).
Proof. by intros s. Qed.

Lemma silent_get : silent p get.
Proof. by intros s. Qed.

Lemma silent_modify g : silent p (modify g).
Proof. by intros s. Qed.

Lemma silent_lift {A} (o : res A) : silent p (lift o).
Proof. by intros s. Qed.

Lemma silent_emit e : p e = false -> silent p (emit e).
Proof.
  intros H s. unfold count_events, emit. simpl.
  rewrite filter_cons_False; [done | by rewrite H].
Qed.

Lemma silent_alert pl l m icon :
  p (Banner pl l m) = false -> silent p (alert pl l m icon).
Proof.
  intros H s. unfold alert. destruct (is_emoji icon); [|done].
  by apply silent_emit.
Qed.

Lemma silent_call {A} e (o : res A) : p e = false -> silent p (call e o).
Proof.
  intros H s. unfold count_events, call. simpl.
  rewrite filter_cons_False; [done | by rewrite H].
Qed.

Lemma silent_bind {A B} (m : M A) (k : A -> M B) :
  silent p m -> (forall a, silent p (k a)) -> silent p (bind m k).
Proof.
  intros Hm Hk s. unfold bind. specialize (Hm s).
  destruct (m s) as [[a|e] s1 t1]; simpl in *; [|done].
  specialize (Hk a s1). destruct (k a s1) as [v s2 t2]; simpl in *.
  by rewrite count_events_app, Hm, Hk.
Qed.

Lemma silent_try_except {A} (m : M A) (h : exn -> M A) :
  silent p m -> (forall e, silent p (h e)) -> silent p (try_except m h).
Proof.
  intros Hm Hh s. unfold try_except. specialize (Hm s).
  destruct (m s) as [[a|e] s1 t1]; simpl in *; [done|].
  specialize (Hh e s1). destruct (h e s1) as [v s2 t2]; simpl in *.
  by rewrite count_events_app, Hm, Hh.
Qed.

Lemma silent_for_each {A} (l : list A) (body : A -> M unit) :
  (forall x, silent p (body x)) -> silent p (for_each l body).
Proof.
  intros Hb. induction l as [|x l IH]; simpl.
  - apply silent_ret.
  - apply silent_bind; [apply Hb | by intros _].
Qed.
End Traces.

Lemma total_ret {A} (a : A) : total (ret a).
Proof. intros s. by exists a. Qed.

Lemma total_get : total get.
Proof. intros s. by exists s. Qed.

Lemma total_emit e : total (emit e).
Proof. intros s. by exists tt. Qed.

(** An alert whose icon is an emoji is shown. *)
Lemma total_alert pl l m icon : is_emoji icon = true -> total (alert pl l m icon).
Proof. intros H s. unfold alert. rewrite H. by exists tt. Qed.

Lemma total_modify g : total (modify g).
Proof. intros s. by exists tt. Qed.

Lemma total_bind {A B} (m : M A) (k : A -> M B) :
  total m -> (forall a, total (k a)) -> total (bind m k).
Proof.
  intros Hm Hk s. unfold bind. destruct (Hm s) as [a Ha].
  destruct (m s) as [v s1 t1]; simpl in *. subst v.
  destruct (Hk a s1) as [b Hb]. destruct (k a s1) as [v s2 t2]; simpl in *.
  by exists b.
Qed.

Lemma total_try_except {A} (m : M A) (h : exn -> M A) :
  (forall e, total (h e)) -> total (try_except m h).
Proof.
  intros Hh s. unfold try_except.
  destruct (m s) as [[a|e] s1 t1]; simpl; [by exists a|].
  destruct (Hh e s1) as [b Hb]. destruct (h e s1) as [v s2 t2]; simpl in *.
  by exists b.
Qed.

(** Walk through a block of the script, one statement at a time. *)
Ltac walk_respects :=
  repeat (cbv zeta; lazymatch goal with
  | |- PreOrder _ => apply _
  | |- forall _, _ => intros ?
  | |- respects _ (ret _) => apply respects_ret
  | |- respects _ get => apply respects_get
  | |- respects _ (emit _) => apply respects_emit
  | |- respects _ (alert _ _ _ _) => apply respects_alert
  | |- respects _ (call _ _) => apply respects_call
  | |- respects _ (lift _) => apply respects_lift
  | |- respects _ (modify _) => apply respects_modify
  | |- respects _ (bind _ _) => apply respects_bind
  | |- respects _ (try_except _ _) => apply respects_try_except
  | |- respects _ (for_each _ _) => apply respects_for_each
  | |- respects _ (if ?c then _ else _) => destruct c
  | |- respects _ (match ?c with _ => _ end) => destruct c
  end).

Ltac walk_silent :=
  repeat (cbv zeta; lazymatch goal with
  | |- silent _ (ret _) => apply silent_ret
  | |- silent _ get => apply silent_get
  | |- silent _ (emit _) => apply silent_emit; reflexivity
  | |- silent _ (alert _ _ _ _) => apply silent_alert; reflexivity
  | |- silent _ (call _ _) => apply silent_call; reflexivity
  | |- silent _ (lift _) => apply silent_lift
  | |- silent _ (modify _) => apply silent_modify
  | |- forall _, _ => intros ?
  | |- silent _ (bind _ _) => apply silent_bind
  | |- silent _ (try_except _ _) => apply silent_try_except
  | |- silent _ (for_each _ _) => apply silent_for_each
  | |- silent _ (if ?c then _ else _) => destruct c
  | |- silent _ (match ?c with _ => _ end) => destruct c
  end).

Ltac walk_total :=
  repeat (cbv zeta; lazymatch goal with
  | |- total (ret _) => apply total_ret
  | |- total get => apply total_get
  | |- total (emit _) => apply total_emit
  | |- total (alert _ _ _ _) => apply total_alert; reflexivity
  | |- total (modify _) => apply total_modify
  | |- forall _, _ => intros ?
  | |- total (bind _ _) => apply total_bind
  | |- total (try_except _ _) => apply total_try_except
  | |- total (if ?c then _ else _) => destruct c
  | |- total (match ?c with _ => _ end) => destruct c
  end).

(** ** Removing the uploaded file *)

(** C9: when the upload widget becomes empty, the [on_change] callback resets
    [pdf_text], [summary] and [uploaded_file_id] to [None] and leaves
    [case_details], [timeline], [hearings], [user_gemini_key],
    [gemini_configured] and [gemini_error] as they were. *)
Theorem on_change_file_removed (s : session_state) :
  let s' := on_change_pdf_uploader None s in
  pdf_text s' = None /\ summary s' = None /\ uploaded_file_id s' = None /\
  case_details s' = case_details s /\ timeline s' = timeline s /\
  hearings s' = hearings s /\ user_gemini_key s' = user_gemini_key s /\
  gemini_configured s' = gemini_configured s /\ gemini_error s' = gemini_error s.
Proof. simpl. by repeat split. Qed.

(** The callback does nothing while a file is in the widget. *)
Lemma on_change_file_present (f : uploaded_file) (s : session_state) :
  on_change_pdf_uploader (Some f) s = s.
Proof. done. Qed.

(** ** What each block writes *)

Section Frames.
Context (R : relation session_state) `{!PreOrder R}.

Lemma resolve_api_key_respects inp :
  (forall v s, R s (set_user_gemini_key v s)) ->
  (forall s, R s (set_gemini_configured false s)) ->
  respects R (resolve_api_key inp).
Proof. intros H1 H2. unfold resolve_api_key. walk_respects; auto. Qed.

Lemma configure_gemini_respects inp key :
  (forall v s, R s (set_gemini_configured v s)) ->
  (forall v s, R s (set_gemini_error v s)) ->
  respects R (configure_gemini inp key).
Proof. intros H1 H2. unfold configure_gemini. walk_respects; auto. Qed.

Lemma extract_text_respects inp bytes : respects R (extract_text_from_pdf inp bytes).
Proof. unfold extract_text_from_pdf. walk_respects. Qed.

Lemma process_upload_respects inp f :
  (forall v s, R s (set_pdf_text v s)) ->
  (forall v s, R s (set_summary v s)) ->
  (forall v s, R s (set_uploaded_file_id v s)) ->
  respects R (process_upload inp f).
Proof.
  intros H1 H2 H3. unfold process_upload.
  walk_respects; auto using extract_text_respects.
Qed.

Lemma show_pdf_respects inp f : respects R (show_pdf inp f).
Proof. unfold show_pdf. walk_respects. Qed.

Lemma summarize_respects inp t m : respects R (summarize_with_gemini inp t m).
Proof. unfold summarize_with_gemini. walk_respects. Qed.

Lemma generate_summary_respects inp m :
  (forall v s, R s (set_summary v s)) -> respects R (generate_summary inp m).
Proof.
  intros H. unfold generate_summary. walk_respects; auto using summarize_respects.
Qed.

Lemma show_summary_respects d : respects R (show_summary d).
Proof. unfold show_summary. walk_respects. Qed.

Lemma edit_case_details_respects inp :
  (forall v s, R s (set_case_details v s)) -> respects R (edit_case_details inp).
Proof. intros H. unfold edit_case_details, edit_case_text. walk_respects; auto. Qed.

Lemma edit_timeline_respects inp :
  (forall v s, R s (set_timeline v s)) -> respects R (edit_timeline inp).
Proof. intros H. unfold edit_timeline. walk_respects; auto. Qed.

Lemma add_hearing_respects inp :
  (forall v s, R s (set_hearings v s)) -> respects R (add_hearing inp).
Proof. intros H. unfold add_hearing. walk_respects; auto. Qed.

Lemma display_hearings_respects : respects R display_hearings.
Proof. unfold display_hearings, show_hearing. walk_respects. Qed.

(** The same for a relation that the timeline editor and the hearing handler
    respect for a reason of their own. *)
Lemma manual_entry_respects_via inp :
  (forall v s, R s (set_case_details v s)) ->
  respects R (edit_timeline inp) ->
  respects R (add_hearing inp) ->
  respects R (manual_entry inp).
Proof.
  intros. unfold manual_entry. walk_respects;
    auto using edit_case_details_respects, display_hearings_respects.
Qed.

Lemma analysis_and_details_respects_via inp gemini_model :
  (forall v s, R s (set_summary v s)) ->
  (forall v s, R s (set_case_details v s)) ->
  respects R (edit_timeline inp) ->
  respects R (add_hearing inp) ->
  respects R (analysis_and_details inp gemini_model).
Proof.
  intros. unfold analysis_and_details. walk_respects;
    auto using generate_summary_respects, show_summary_respects,
      manual_entry_respects_via.
Qed.

Lemma main_area_respects_via inp gemini_model :
  (forall v s, R s (set_pdf_text v s)) ->
  (forall v s, R s (set_summary v s)) ->
  (forall v s, R s (set_uploaded_file_id v s)) ->
  (forall v s, R s (set_case_details v s)) ->
  respects R (edit_timeline inp) ->
  respects R (add_hearing inp) ->
  respects R (main_area inp gemini_model).
Proof.
  intros. unfold main_area. walk_respects;
    auto using process_upload_respects, show_pdf_respects,
      analysis_and_details_respects_via.
Qed.

Lemma manual_entry_respects inp :
  (forall v s, R s (set_case_details v s)) ->
  (forall v s, R s (set_timeline v s)) ->
  (forall v s, R s (set_hearings v s)) ->
  respects R (manual_entry inp).
Proof.
  auto using manual_entry_respects_via, edit_timeline_respects,
    add_hearing_respects.
Qed.

Lemma analysis_and_details_respects inp gemini_model :
  (forall v s, R s (set_summary v s)) ->
  (forall v s, R s (set_case_details v s)) ->
  (forall v s, R s (set_timeline v s)) ->
  (forall v s, R s (set_hearings v s)) ->
  respects R (analysis_and_details inp gemini_model).
Proof.
  auto using analysis_and_details_respects_via, edit_timeline_respects,
    add_hearing_respects.
Qed.

Lemma main_area_respects inp gemini_model :
  (forall v s, R s (set_pdf_text v s)) ->
  (forall v s, R s (set_summary v s)) ->
  (forall v s, R s (set_uploaded_file_id v s)) ->
  (forall v s, R s (set_case_details v s)) ->
  (forall v s, R s (set_timeline v s)) ->
  (forall v s, R s (set_hearings v s)) ->
  respects R (main_area inp gemini_model).
Proof.
  auto using main_area_respects_via, edit_timeline_respects,
    add_hearing_respects.
Qed.
End Frames.

(** ** Gemini configuration *)

Ltac untouched :=
  intros; unfold stays, same, config_failed; simpl; intuition.

Ltac run_block :=
  unfold bind, try_except, alert, get, call, emit, modify, ret, lift; simpl.

Lemma emitted_bind_l {A B} (m : M A) (k : A -> M B) s e :
  e ∈ emitted (m s) -> e ∈ emitted (bind m k s).
Proof.
  intros H. unfold bind. destruct (m s) as [[a|?] s1 t1]; simpl in *; [|done].
  destruct (k a s1); simpl. apply elem_of_app. by left.
Qed.

Lemma emitted_bind_r {A B} (m : M A) (k : A -> M B) s a e :
  value (m s) = Ok a -> e ∈ emitted (k a (state_after (m s))) ->
  e ∈ emitted (bind m k s).
Proof.
  intros Hv H. unfold bind. destruct (m s) as [v s1 t1]; simpl in *. subst v.
  destruct (k a s1); simpl in *. apply elem_of_app. by right.
Qed.

Lemma state_after_bind {A B} (m : M A) (k : A -> M B) s a :
  value (m s) = Ok a ->
  state_after (bind m k s) = state_after (k a (state_after (m s))).
Proof.
  intros Hv. unfold bind. destruct (m s) as [v s1 t1]; simpl in *. subst v.
  by destruct (k a s1).
Qed.

Lemma resolve_api_key_found inp s k :
  value (resolve_api_key inp s) = Ok (Some k) ->
  str_truthy k = true /\
  gemini_configured (state_after (resolve_api_key inp s)) = gemini_configured s /\
  gemini_error (state_after (resolve_api_key inp s)) = gemini_error s.
Proof.
  unfold resolve_api_key. run_block.
  destruct (secrets_get inp) as [[k'|]|e]; simpl;
    repeat (case_match; simpl); intros; by simplify_eq.
Qed.

Lemma configure_gemini_failed_stays inp key msg :
  respects (stays (config_failed msg)) (configure_gemini inp key).
Proof.
  intros s [Hc He]. unfold configure_gemini. run_block.
  rewrite Hc, He. rewrite andb_false_r. simpl.
  by destruct msg.
Qed.

Lemma render_pass_failed_stays inp msg :
  respects (stays (config_failed msg)) (render_pass inp).
Proof.
  unfold render_pass. apply respects_bind; [apply _| |intros key].
  { apply resolve_api_key_respects; [apply _| |]; untouched. }
  apply respects_bind; [apply _| |intros gemini_model].
  { apply configure_gemini_failed_stays. }
  apply main_area_respects; [apply _|..]; untouched.
Qed.

Lemma run_passes_failed_stays passes msg s :
  config_failed msg s -> config_failed msg (run_passes passes s).
Proof.
  revert s. induction passes as [|inp passes IH]; intros s H; [done|].
  simpl. apply IH. by apply render_pass_failed_stays.
Qed.

Lemma configure_gemini_total inp key : total (configure_gemini inp key).
Proof. unfold configure_gemini. walk_total. Qed.

Lemma configure_gemini_raises inp k e s :
  str_truthy k = true ->
  gemini_configured s = true \/ gemini_error s = None ->
  configuration_raises inp k e ->
  config_failed (str_of_exn e) (state_after (configure_gemini inp (Some k) s)).
Proof.
  intros Hk Hs Hraise.
  unfold configure_gemini. run_block. rewrite Hk. simpl.
  destruct (gemini_configured s) eqn:Hc; simpl.
  - destruct Hraise as [-> | [-> ->]]; simpl; done.
  - destruct Hs as [|He]; [done|]. rewrite He. simpl.
    destruct Hraise as [-> | [-> ->]]; simpl; done.
Qed.

Lemma configure_gemini_attempts inp k s :
  str_truthy k = true -> gemini_configured s = false -> gemini_error s = None ->
  CallConfigure k ∈ emitted (configure_gemini inp (Some k) s).
Proof.
  intros Hk Hc He.
  unfold configure_gemini. run_block. rewrite Hk, Hc, He. simpl.
  destruct (genai_configure inp k); simpl;
    [destruct (genai_GenerativeModel inp model_id); simpl|];
    set_solver.
Qed.

(** C2: after a configuration attempt that fails, the message stored in
    [gemini_error] is still there after any number of further render passes
    (whatever they supply, so in particular while no new key is supplied);
    and a render pass that has a key, finds [gemini_configured] false and
    [gemini_error] empty calls [genai.configure] with that key. *)
Theorem gemini_error_persists_and_configuration_is_retried :
  (forall inp s k e passes,
     value (resolve_api_key inp s) = Ok (Some k) ->
     gemini_configured s = true \/ gemini_error s = None ->
     configuration_raises inp k e ->
     gemini_error (run_passes passes (state_after (render_pass inp s)))
       = Some (str_of_exn e)) /\
  (forall inp s k,
     value (resolve_api_key inp s) = Ok (Some k) ->
     gemini_configured s = false ->
     gemini_error s = None ->
     CallConfigure k ∈ emitted (render_pass inp s)).
Proof.
  split.
  - intros inp s k e passes Hkey Hs Hraise.
    apply (run_passes_failed_stays passes (str_of_exn e)).
    destruct (resolve_api_key_found _ _ _ Hkey) as (Hk & Hc & He).
    unfold render_pass. rewrite (state_after_bind _ _ _ _ Hkey).
    set (s1 := state_after (resolve_api_key inp s)) in *.
    assert (H1 : config_failed (str_of_exn e)
                   (state_after (configure_gemini inp (Some k) s1))).
    { apply configure_gemini_raises; [done| |done]. rewrite Hc, He. done. }
    destruct (configure_gemini_total inp (Some k) s1) as [gm Hgm].
    rewrite (state_after_bind _ _ _ _ Hgm).
    eapply (main_area_respects (stays (config_failed (str_of_exn e))) inp gm);
      [untouched..|exact H1].
  - intros inp s k Hkey Hc He.
    destruct (resolve_api_key_found _ _ _ Hkey) as (Hk & Hc' & He').
    unfold render_pass. eapply emitted_bind_r; [exact Hkey|].
    apply emitted_bind_l. apply configure_gemini_attempts; congruence.
Qed.

Lemma gemini_error_persists_witness :
  gemini_error (run_passes [idle; rejected_key]
                  (state_after (render_pass rejected_key default_session_state)))
    = Some "API key not valid" /\
  CallConfigure "k-123" ∈ emitted (render_pass rejected_key default_session_state).
Proof.
  destruct gemini_error_persists_and_configuration_is_retried as [H1 H2].
  split.
  - apply (H1 rejected_key default_session_state "k-123" (Exn "API key not valid")).
    + reflexivity.
    + right. reflexivity.
    + left. reflexivity.
  - apply (H2 rejected_key default_session_state "k-123"); reflexivity.
Defined.

(** ** Timeline: the decision-date default *)

(** Whenever the timeline has the key [decision_date], also with the value
    [None], the field is pre-filled with the stored value and the judgement
    date plays no part. *)
Lemma timeline_decision_date_stored (s : session_state) (v : pyval) :
  timeline s !! "decision_date" = Some v -> timeline_decision_date s = v.
Proof. intros H. unfold timeline_decision_date, dict_get. by rewrite H. Qed.

(** The judgement date is used only when the key is missing altogether. *)
Lemma timeline_decision_date_missing (s : session_state) :
  timeline s !! "decision_date" = None ->
  timeline_decision_date s = dict_get (case_details s) "judgement_date" PNone.
Proof. intros H. unfold timeline_decision_date, dict_get at 1. by rewrite H. Qed.

(** The key is there from the start and no block removes it, so in every
    reachable session the judgement date plays no part in the pre-fill. *)
Lemma edit_timeline_keeps_decision_key inp :
  respects (stays (fun s => is_Some (timeline s !! "decision_date")))
    (edit_timeline inp).
Proof.
  intros s _. unfold edit_timeline. run_block. by rewrite lookup_insert_eq.
Qed.

Lemma render_pass_keeps_decision_key inp :
  respects (stays (fun s => is_Some (timeline s !! "decision_date")))
    (render_pass inp).
Proof.
  unfold render_pass. apply respects_bind; [apply _| |intros key].
  { apply resolve_api_key_respects; [apply _|untouched..]. }
  apply respects_bind; [apply _| |intros gemini_model].
  { apply configure_gemini_respects; [apply _|untouched..]. }
  apply main_area_respects_via; [apply _|untouched..| |].
  - apply edit_timeline_keeps_decision_key.
  - apply add_hearing_respects; [apply _|untouched].
Qed.

Lemma reachable_prefill_ignores_judgement_date (s : session_state) :
  reachable s ->
  timeline_decision_date s = dict_get (timeline s) "decision_date" PNone.
Proof.
  intros Hs.
  assert (Hkey : is_Some (timeline s !! "decision_date")).
  { induction Hs as [|inp s _ IH|widget s _ IH].
    - by eexists.
    - by apply render_pass_keeps_decision_key.
    - by destruct widget. }
  destruct Hkey as [v Hv]. unfold timeline_decision_date, dict_get.
  by rewrite Hv.
Qed.

(** C3, on the code: after the user has entered a judgement date and before
    any decision date is set, the decision-date field of the next pass is
    pre-filled with [None], not with the judgement date. *)
Theorem decision_date_not_prefilled_from_judgement_date :
  let s := state_after (render_pass pick_judgement_date default_session_state) in
  dict_get (case_details s) "judgement_date" PNone = PDate (Date 2024 3 15) /\
  dict_get (timeline s) "decision_date" PNone = PNone /\
  timeline_decision_date s = PNone /\
  DateInput "timeline_decision" (Some PNone)
    ∈ emitted (render_pass pick_judgement_date s).
Proof.
  repeat split; try (vm_compute; reflexivity).
  apply (list_elem_of_lookup_2 _ 12%nat). vm_compute. reflexivity.
Qed.

(** ** Adding a hearing *)

(** C7: when the "Add Hearing Summary" button is pressed with the date or the
    summary missing, the stored hearings, and the whole session state, are
    unchanged and the warning is shown; with both present, the stored
    hearings are the earlier ones followed by exactly one new record, a
    dictionary that holds that date under "date", that summary under
    "summary" and nothing else, and no other field of the session
    changes. *)
Theorem add_hearing_appends_or_warns (inp : inputs) (s : session_state) :
  button inp "add_hearing_btn" false = true ->
  let r := add_hearing inp s in
  let new_date := date_input inp "new_hearing_date" None in
  let new_summary := text_area inp "new_hearing_summary" (PStr "") in
  (new_date = None \/ new_summary = "" ->
     hearings (state_after r) = hearings s /\
     state_after r = s /\ value r = Ok tt /\
     Banner Main LWarning MNeedDateAndSummary ∈ emitted r) /\
  (forall d, new_date = Some d -> new_summary <> "" ->
     (exists record,
        hearings (state_after r) = hearings s ++ [ODict record] /\
        record !! "date" = Some (PDate d) /\
        record !! "summary" = Some (PStr new_summary) /\
        forall key, key <> "date" -> key <> "summary" -> record !! key = None) /\
     other_than_hearings (state_after r) = other_than_hearings s /\
     value r = Ok tt).
Proof.
  intros Hclick. unfold add_hearing. run_block. rewrite Hclick.
  split.
  - intros [-> | ->]; simpl.
    + split; [done|]. split; [done|]. split; [done|]. set_solver.
    + rewrite andb_false_r. split; [done|]. split; [done|]. split; [done|].
      set_solver.
  - intros d -> Hne. simpl.
    destruct (text_area inp "new_hearing_summary" (PStr "")) as [|c t];
      [done|]. simpl.
    split; [|done].
    exists (<["date" := PDate d]> (<["summary" := PStr (String c t)]> ∅)).
    split; [done|]. split; [by rewrite lookup_insert_eq|].
    split; [by rewrite lookup_insert_ne, lookup_insert_eq|].
    intros key Hd Hs. by rewrite !lookup_insert_ne, lookup_empty.
Qed.

Lemma add_hearing_witness :
  exists record,
    hearings
      (state_after
         (add_hearing (press_add_hearing (Some (Date 2024 5 2)) "Adjourned")
            default_session_state))
    = hearings default_session_state ++ [ODict record] /\
    record !! "date" = Some (PDate (Date 2024 5 2)) /\
    record !! "summary" = Some (PStr "Adjourned") /\
    forall key, key <> "date" -> key <> "summary" -> record !! key = None.
Proof.
  apply (add_hearing_appends_or_warns
           (press_add_hearing (Some (Date 2024 5 2)) "Adjourned")
           default_session_state eq_refl).
  - reflexivity.
  - discriminate.
Defined.


(** ** The summarizer *)

Lemma substring_prefix (n : nat) (s : string) :
  exists rest, s = String.substring 0 n s +:+ rest.
Proof.
  revert s. induction n as [|n IH]; intros s.
  - exists s. by destruct s.
  - destruct s as [|c s]; [by exists ""|].
    destruct (IH s) as [rest Hrest]. exists rest.
    change (String c s = String c (String.substring 0 n s +:+ rest)).
    by rewrite <- Hrest.
Qed.

Lemma substring_length (n : nat) (s : string) :
  String.length (String.substring 0 n s) = Nat.min n (String.length s).
Proof.
  revert s. induction n as [|n IH]; intros s.
  - by destruct s.
  - destruct s as [|c s]; [done|]. simpl. by rewrite IH.
Qed.

Lemma substring_all (n : nat) (s : string) :
  (String.length s <= n)%nat -> String.substring 0 n s = s.
Proof.
  revert s. induction n as [|n IH]; intros s Hle.
  - destruct s; [done|]. simpl in Hle. lia.
  - destruct s as [|c s]; [done|]. simpl in *. rewrite IH; [done|lia].
Qed.

(** [s[:n]] is the first [n] characters of [s], or all of [s] if it is
    shorter. *)
Lemma str_take_long (n : Z) (s : string) :
  0 <= n -> n < len s ->
  len (str_take n s) = n /\ exists rest, s = str_take n s +:+ rest.
Proof.
  intros Hn Hlt. unfold str_take, len in *. split.
  - rewrite substring_length. lia.
  - apply substring_prefix.
Qed.

Lemma str_take_short (n : Z) (s : string) :
  len s <= n -> str_take n s = s.
Proof. intros Hle. unfold str_take, len in *. apply substring_all. lia. Qed.

Lemma len_truthy (s : string) : 0 < len s -> str_truthy s = true.
Proof. destruct s; [unfold len; simpl; lia | done]. Qed.

Ltac api_error_cases e :=
  destruct (str_contains "API key not valid" (str_of_exn e));
    [|destruct (str_contains "quota" (str_lower (str_of_exn e)))];
  simpl.

Ltac in_trace :=
  solve [repeat first [apply list_elem_of_here | apply list_elem_of_further]].

Ltac not_in_trace :=
  let H := fresh in
  intros H;
  repeat (apply elem_of_cons in H as [H|H]; [discriminate H|]);
  by apply elem_of_nil in H.

(** C5: with the client configured and at least 50 characters of text, the
    summarizer sends exactly one request, whose prompt is the template around
    a body; for a text longer than 100,000 characters the body is its first
    100,000 characters and the truncation notice is shown; otherwise the body
    is the whole text and no truncation notice is shown. *)
Theorem summarize_truncates (inp : inputs) (s : session_state)
  (txt : string) (mdl : model) :
  gemini_configured s = true ->
  50 <= len txt ->
  let r := summarize_with_gemini inp (Some txt) (Some mdl) s in
  exists body,
    CallGenerateContent mdl (prompt_head +:+ body +:+ prompt_tail) safety_settings
      ∈ emitted r /\
    count_events is_generation (emitted r) = 1%nat /\
    (100000 < len txt ->
       len body = 100000 /\ (exists rest, txt = body +:+ rest) /\
       Banner Main LInfo (MTruncated 100000) ∈ emitted r) /\
    (len txt <= 100000 ->
       body = txt /\ forall p l n, Banner p l (MTruncated n) ∉ emitted r).
Proof.
  intros Hc Hlen. exists (str_take max_chars txt).
  unfold summarize_with_gemini. run_block. rewrite Hc. simpl.
  rewrite (len_truthy txt) by lia. simpl.
  destruct (Z.ltb_spec (len txt) 50) as [?|_]; [lia|].
  fold (build_prompt (str_take max_chars txt)).
  set (prompt := build_prompt (str_take max_chars txt)).
  rewrite Z.gtb_ltb. unfold max_chars in *.
  assert (Hbody : str_take 100000 txt = str_take max_chars txt) by done.
  destruct (Z.ltb_spec 100000 (len txt)) as [Hlong|Hshort]; simpl;
    (destruct (generate_content inp mdl prompt safety_settings) as [resp|e]; simpl;
     [destruct (parts resp) as [[|? ?]|e']; simpl;
      [destruct (block_details resp); simpl
      |destruct (text resp) as [?|e]; simpl; [|api_error_cases e]
      |api_error_cases e']
     |api_error_cases e]).
  all: split; [in_trace|]; split; [done|].
  all: split; [intros ?|intros ?]; try lia.
  all: try (pose proof (str_take_long 100000 txt ltac:(lia) ltac:(lia)) as [? ?];
            split; [done|]; split; [done|]; in_trace).
  all: split; [apply str_take_short; lia|]; intros ? ? ?; not_in_trace.
Qed.

Lemma summarize_truncates_witness :
  Banner Main LInfo (MTruncated 100000)
    ∈ emitted (summarize_with_gemini idle (Some long_text)
                 (Some (Model model_id)) configured_session).
Proof.
  destruct (summarize_truncates idle configured_session long_text (Model model_id))
    as (body & _ & _ & Hlong & _).
  - reflexivity.
  - vm_compute. discriminate.
  - apply Hlong. vm_compute. reflexivity.
Defined.

(** C6: for a text that is absent, empty or shorter than 50 characters the
    summarizer returns [None], leaves the session as it is and sends no
    request; with the client configured, what it reports is the
    not-enough-text warning. *)
Theorem summarize_rejects_short_text (inp : inputs) (s : session_state)
  (txt : option string) (mdl : option model) :
  txt = None \/ len (default "" txt) < 50 ->
  let r := summarize_with_gemini inp txt mdl s in
  value r = Ok None /\ state_after r = s /\
  count_events is_generation (emitted r) = 0%nat /\
  (gemini_configured s = true -> mdl <> None ->
   emitted r = [Banner Main LWarning MNotEnoughText]).
Proof.
  intros Hshort. unfold summarize_with_gemini. run_block.
  assert (Hcheck : negb (opt_truthy txt) || (len (default "" txt) <? 50) = true).
  { destruct Hshort as [->|Hlt]; [done|].
    apply orb_true_iff. right. by apply Z.ltb_lt. }
  rewrite Hcheck.
  destruct (gemini_configured s); simpl; [|by repeat split].
  destruct mdl as [m|]; simpl; by repeat split.
Qed.

Lemma summarize_rejects_short_text_witness :
  emitted (summarize_with_gemini idle (Some "Order reserved.")
             (Some (Model model_id)) configured_session)
  = [Banner Main LWarning MNotEnoughText].
Proof.
  apply (summarize_rejects_short_text idle configured_session
           (Some "Order reserved.") (Some (Model model_id))).
  - right. vm_compute. reflexivity.
  - reflexivity.
  - discriminate.
Defined.

(** The model handle exists only while the client is configured: whenever
    the configuration block yields a model, [gemini_configured] is true. *)
Lemma configure_gemini_model_configured inp key s m :
  value (configure_gemini inp key s) = Ok (Some m) ->
  gemini_configured (state_after (configure_gemini inp key s)) = true.
Proof.
  unfold configure_gemini. run_block.
  destruct (opt_truthy key); simpl;
    destruct (gemini_configured s) eqn:Hc; simpl;
    try destruct (bool_decide (gemini_error s = None)); simpl;
    try destruct (genai_configure inp (default "" key)); simpl;
    try destruct (genai_GenerativeModel inp model_id); simpl;
    try destruct (opt_truthy (gemini_error s)); simpl; done.
Qed.

(** A failed attempt writes nothing.  It returns [None], unless the failure
    is a remote error that gets the quota hint: the hint's icon is refused,
    and the exception of the refusal leaves the summarizer. *)
Lemma summarize_fails inp txt mdl s :
  summarization_fails inp txt mdl s ->
  let r := summarize_with_gemini inp txt mdl s in
  state_after r = s /\
  (value r = Ok None \/ value r = Raise (not_an_emoji quota_icon)).
Proof.
  intros Hfail. cbv zeta. split.
  { apply (summarize_respects (same id)). }
  unfold summarize_with_gemini. run_block.
  destruct (gemini_configured s) eqn:Hc; simpl; [|by left].
  destruct mdl as [m|]; simpl; [|by left].
  destruct (negb (opt_truthy txt) || (len (default "" txt) <? 50)) eqn:Hcheck;
    simpl; [by left|].
  apply orb_false_iff in Hcheck as [Htruthy Hlen].
  apply Z.ltb_ge in Hlen.
  destruct txt as [t|]; [|done]. simpl in *.
  fold (build_prompt (str_take max_chars t)).
  destruct Hfail as [[?|?] | [?|?] | t' m' r Ht Hm Hgen Hparts
                    | t' m' e Ht Hm Herr];
    simpl in *; try done; try lia; try congruence;
    injection Ht as <-; injection Hm as <-.
  - destruct (len t >? max_chars); simpl; rewrite Hgen; simpl;
      rewrite Hparts; simpl; destruct (block_details r); by left.
  - destruct Herr as [Hgen | (r & Hgen & [Hparts | [(p & ps & Hparts) Htext]])];
      destruct (len t >? max_chars); simpl; rewrite Hgen; simpl;
      rewrite ?Hparts; simpl; rewrite ?Htext; simpl;
      api_error_cases e; auto.
Qed.

(** The summarizer lets a quota error through. *)
Lemma summarize_quota_error inp s txt mdl e :
  gemini_configured s = true ->
  50 <= len txt ->
  remote_error inp mdl txt e ->
  gets_quota_hint e = true ->
  let r := summarize_with_gemini inp (Some txt) (Some mdl) s in
  value r = Raise (not_an_emoji quota_icon) /\
  state_after r = s /\
  (Banner Main LError MQuota ∉ emitted r).
Proof.
  intros Hc Hlen Herr [Hkey%negb_true_iff Hquota]%andb_true_iff. cbv zeta.
  unfold summarize_with_gemini. run_block. rewrite Hc. simpl.
  rewrite (len_truthy txt) by lia. simpl.
  destruct (Z.ltb_spec (len txt) 50) as [?|_]; [lia|].
  fold (build_prompt (str_take max_chars txt)).
  destruct Herr as [Hgen | (r & Hgen & [Hparts | [(p & ps & Hparts) Htext]])];
    destruct (len txt >? max_chars); simpl; rewrite Hgen; simpl;
    rewrite ?Hparts; simpl; rewrite ?Htext; simpl;
    rewrite Hkey, Hquota; simpl;
    (split; [done|]; split; [done|]; not_in_trace).
Qed.

(** C8: the claim fails at a quota error.  With the client configured and a
    text of at least 50 characters stored, a press of "Generate Summary"
    whose request ends in an exception that gets the quota hint (line 206)
    leaves the stored summary and the whole session as they were, but the
    exception does escape: line 207 passes [st.error] an icon that is not an
    emoji, Streamlit raises inside the handler, and the exception leaves the
    summarizer and the button handler.  Neither the quota hint nor the
    "Summary generation failed" warning is shown. *)
Theorem quota_error_escapes_the_handler (inp : inputs) (s : session_state)
  (txt : string) (mdl : model) (e : exn) :
  gemini_configured s = true ->
  pdf_text s = Some txt ->
  50 <= len txt ->
  remote_error inp mdl txt e ->
  gets_quota_hint e = true ->
  button inp "Generate Summary with Gemini" (summarize_button_disabled s) = true ->
  let r := generate_summary inp (Some mdl) s in
  value (summarize_with_gemini inp (Some txt) (Some mdl) s)
    = Raise (not_an_emoji quota_icon) /\
  value r = Raise (not_an_emoji quota_icon) /\
  state_after r = s /\ summary (state_after r) = summary s /\
  (Banner Main LError MQuota ∉ emitted r) /\
  (Banner Main LWarning MSummaryFailed ∉ emitted r).
Proof.
  intros Hc Htext Hlen Herr Hquota Hclick. cbv zeta.
  destruct (summarize_quota_error inp s txt mdl e Hc Hlen Herr Hquota)
    as (Hv & Hst & Hhint).
  split; [exact Hv|].
  assert (Hrun : generate_summary inp (Some mdl) s
                 = Run (Raise (not_an_emoji quota_icon)) s
                     (Button "Generate Summary with Gemini"
                        (summarize_button_disabled s)
                      :: Spinner MGenerating
                      :: emitted (summarize_with_gemini inp (Some txt) (Some mdl) s))).
  { unfold generate_summary. run_block. rewrite Hclick. simpl.
    rewrite Htext. simpl. rewrite (len_truthy txt) by lia. simpl.
    destruct (summarize_with_gemini inp (Some txt) (Some mdl) s) as [v s1 t1].
    simpl in *. by subst. }
  rewrite Hrun. simpl. split; [done|]. split; [done|]. split; [done|].
  split.
  - intros [H|H]%elem_of_cons; [done|].
    apply elem_of_cons in H as [H|H]; [done|]. by apply Hhint.
  - intros [H|H]%elem_of_cons; [done|].
    apply elem_of_cons in H as [H|H]; [done|]. revert H.
    clear Hrun Hv Hst Hhint.
    unfold summarize_with_gemini. run_block. rewrite Hc. simpl.
    rewrite (len_truthy txt) by lia. simpl.
    destruct (Z.ltb_spec (len txt) 50) as [?|_]; [lia|].
    destruct (len txt >? max_chars); simpl;
      (destruct (generate_content inp _ _ _) as [resp|e0]; simpl;
       [destruct (parts resp) as [[|? ?]|e']; simpl;
        [destruct (block_details resp); simpl
        |destruct (text resp) as [?|e1]; simpl; [|api_error_cases e1]
        |api_error_cases e']
       |api_error_cases e0]);
      not_in_trace.
Qed.

(** The API answers 429. *)
Lemma quota_error_witness :
  value (generate_summary quota_exceeded (Some (Model model_id))
           (set_pdf_text (Some judgement_text) configured_session))
  = Raise (not_an_emoji quota_icon).
Proof.
  apply (quota_error_escapes_the_handler quota_exceeded
           (set_pdf_text (Some judgement_text) configured_session)
           judgement_text (Model model_id)
           (Exn "429 Quota exceeded for quota metric"));
    try reflexivity.
  - vm_compute. discriminate.
  - by left.
Defined.

(** Every failure leaves the session, so the stored summary, as it was, and
    all but that one are caught where they occur. *)
Lemma failed_summary_leaves_summary (inp : inputs)
  (gemini_model : option model) (s : session_state) :
  summarization_fails inp (pdf_text s) gemini_model s ->
  let r := generate_summary inp gemini_model s in
  state_after r = s /\
  (value r = Ok tt \/ value r = Raise (not_an_emoji quota_icon)).
Proof.
  intros Hfail. cbv zeta.
  destruct (summarize_fails _ _ _ _ Hfail) as [Hstate Hvalue].
  unfold generate_summary. run_block.
  destruct (button inp _ _); simpl; [|split; [done|by left]].
  destruct (negb (bool_decide (gemini_model = None)) && opt_truthy (pdf_text s));
    simpl;
    [|destruct (negb (opt_truthy (pdf_text s))); (split; [done|by left])].
  destruct (summarize_with_gemini inp (pdf_text s) gemini_model s)
    as [v s1 t1]. simpl in *. subst s1.
  destruct Hvalue as [-> | ->]; simpl; split; auto.
Qed.

(** A response blocked by the safety filter leaves the earlier summary. *)
Example blocked_response_leaves_summary :
  state_after (generate_summary blocked (Some (Model model_id)) summarized_session)
  = summarized_session.
Proof.
  apply (failed_summary_leaves_summary blocked (Some (Model model_id))
           summarized_session).
  eapply fails_safety_block; reflexivity.
Qed.

(** ** Uploading a file *)

Lemma bind_run {A B} (m : M A) (k : A -> M B) s a :
  value (m s) = Ok a ->
  bind m k s =
    Run (value (k a (state_after (m s))))
        (state_after (k a (state_after (m s))))
        (emitted (m s) ++ emitted (k a (state_after (m s)))).
Proof.
  intros Hv. unfold bind. destruct (m s) as [v s1 t1]; simpl in *. subst v.
  by destruct (k a s1).
Qed.

(** The upload block skips a file it has already read, and otherwise makes
    one extraction attempt and replaces the three document fields. *)
Lemma process_upload_skips inp f s :
  uploaded_file_id s = Some (file_id f) -> pdf_text s <> None ->
  process_upload inp f s = Run (Ok tt) s [].
Proof.
  intros Hid Htext. unfold process_upload. run_block. rewrite Hid.
  rewrite bool_decide_eq_false_2 by done.
  by rewrite bool_decide_eq_true_2.
Qed.

Lemma process_upload_extracts inp f s :
  uploaded_file_id s <> Some (file_id f) \/ pdf_text s = None ->
  let r := process_upload inp f s in
  value r = Ok tt /\
  state_after r =
    set_uploaded_file_id (Some (file_id f))
      (set_summary None (set_pdf_text (extraction_result inp f) s)) /\
  count_events is_extraction (emitted r) = 1%nat.
Proof.
  intros Hnew. unfold process_upload, extract_text_from_pdf, extraction_result.
  run_block.
  assert (bool_decide (pdf_text s = None)
          || negb (bool_decide (Some (file_id f) = uploaded_file_id s)) = true)
    as ->.
  { destruct Hnew as [Hid | ->]; [|done].
    rewrite (bool_decide_eq_false_2 (Some (file_id f) = uploaded_file_id s)) by done.
    apply orb_true_r. }
  destruct (fitz_pages inp (content f)) as [pages|e]; simpl; [|done].
  by destruct (foldl _ _ pages).
Qed.

(** Only the upload block runs the extractor. *)
Lemma resolve_api_key_no_extraction inp : silent is_extraction (resolve_api_key inp).
Proof. unfold resolve_api_key. walk_silent. Qed.

Lemma configure_gemini_no_extraction inp key :
  silent is_extraction (configure_gemini inp key).
Proof. unfold configure_gemini. walk_silent. Qed.

Lemma show_pdf_no_extraction inp f : silent is_extraction (show_pdf inp f).
Proof. unfold show_pdf. walk_silent. Qed.

Lemma analysis_and_details_no_extraction inp gemini_model :
  silent is_extraction (analysis_and_details inp gemini_model).
Proof.
  unfold analysis_and_details, generate_summary, summarize_with_gemini,
    show_summary, manual_entry, edit_case_details, edit_case_text,
    edit_timeline, add_hearing, display_hearings, show_hearing.
  walk_silent.
Qed.

Lemma resolve_api_key_total inp : total (resolve_api_key inp).
Proof. unfold resolve_api_key. walk_total. Qed.

Lemma process_upload_total inp f : total (process_upload inp f).
Proof. unfold process_upload, extract_text_from_pdf. walk_total. Qed.

Lemma bind_raise {A B} (m : M A) (k : A -> M B) s e :
  value (m s) = Raise e ->
  bind m k s = Run (Raise e) (state_after (m s)) (emitted (m s)).
Proof.
  intros Hv. unfold bind. destruct (m s) as [v s1 t1]; simpl in *. by subst v.
Qed.

(** The summarizer returns a text only after it has sent a request. *)
Lemma summarize_none_or_requested inp txt mdl s :
  let r := summarize_with_gemini inp txt mdl s in
  value r = Ok None \/ (0 < count_events is_generation (emitted r))%nat.
Proof.
  unfold summarize_with_gemini. run_block.
  destruct (negb (gemini_configured s) || bool_decide (mdl = None)); simpl;
    [by left|].
  destruct (negb (opt_truthy txt) || (len (default "" txt) <? 50)); simpl;
    [by left|].
  right.
  destruct (len (default "" txt) >? max_chars); simpl;
    (destruct (generate_content inp _ _ _) as [resp|e]; simpl;
     [destruct (parts resp) as [[|? ?]|e']; simpl;
      [destruct (block_details resp); simpl
      |destruct (text resp) as [?|e]; simpl; [|api_error_cases e]
      |api_error_cases e']
     |api_error_cases e]);
    rewrite ?count_events_cons; simpl; lia.
Qed.

(** The button handler changes the session only by storing a summary it has
    just requested. *)
Lemma generate_summary_same_or_requested inp gemini_model s :
  let r := generate_summary inp gemini_model s in
  state_after r = s \/ (0 < count_events is_generation (emitted r))%nat.
Proof.
  simpl.
  pose proof (summarize_none_or_requested inp (pdf_text s) gemini_model s) as Hsum.
  pose proof (summarize_respects (same id) inp (pdf_text s) gemini_model s) as Hst.
  unfold same in Hst. simpl in *.
  unfold generate_summary. run_block.
  destruct (button inp _ _); simpl; [|by left].
  destruct (negb (bool_decide (gemini_model = None)) && opt_truthy (pdf_text s));
    simpl; [|left; by destruct (negb (opt_truthy (pdf_text s)))].
  destruct (summarize_with_gemini inp (pdf_text s) gemini_model s)
    as [v s1 t1]. simpl in *. subst s1.
  destruct Hsum as [-> | Hreq].
  - by left.
  - right. destruct v as [o|e]; simpl; [destruct (opt_truthy o); simpl|].
    all: rewrite !count_events_cons, ?count_events_app; simpl; lia.
Qed.

Lemma keeps_or_requests_bind {A B} (m : M A) (k : A -> M B) :
  keeps_or_requests m -> (forall a, keeps_or_requests (k a)) ->
  keeps_or_requests (bind m k).
Proof.
  intros Hm Hk s. unfold bind. specialize (Hm s).
  destruct (m s) as [[a|e] s1 t1]; simpl in *; [|done].
  specialize (Hk a s1). destruct (k a s1) as [v s2 t2]; simpl in *.
  rewrite count_events_app.
  destruct Hm as [Hm|Hm]; [|right; lia].
  destruct Hk as [Hk|Hk]; [left; congruence|right; lia].
Qed.

Lemma keeps_summary {A} (m : M A) :
  respects (same summary) m -> keeps_or_requests m.
Proof. intros H s. left. apply H. Qed.

Lemma columns_summary inp f gemini_model :
  keeps_or_requests (columns inp f gemini_model).
Proof.
  unfold columns, analysis_and_details.
  apply keeps_or_requests_bind; [|intros _].
  { apply keeps_summary, show_pdf_respects, _. }
  apply keeps_or_requests_bind; [|intros s0].
  { apply keeps_summary, respects_get, _. }
  apply keeps_or_requests_bind; [|intros _].
  { intros s1.
    destruct (generate_summary_same_or_requested inp gemini_model s1) as [->|H];
      [by left|by right]. }
  apply keeps_summary.
  apply respects_bind; [apply _| |intros _].
  - apply show_summary_respects, _.
  - apply manual_entry_respects; [apply _|done..].
Qed.

Lemma columns_respects R `{!PreOrder R} inp f gemini_model :
  respects R (analysis_and_details inp gemini_model) ->
  respects R (columns inp f gemini_model).
Proof.
  intros H. unfold columns. apply respects_bind; [apply _| |by intros _].
  apply show_pdf_respects, _.
Qed.

Lemma columns_no_extraction inp f gemini_model :
  silent is_extraction (columns inp f gemini_model).
Proof.
  unfold columns. apply silent_bind; [|intros _].
  - apply show_pdf_no_extraction.
  - apply analysis_and_details_no_extraction.
Qed.

Lemma sidebar_keeps_document inp s k gm :
  value (resolve_api_key inp s) = Ok k ->
  value (configure_gemini inp k (state_after (resolve_api_key inp s))) = Ok gm ->
  document (state_after (configure_gemini inp k (state_after (resolve_api_key inp s))))
  = document s.
Proof.
  intros _ _.
  pose proof (resolve_api_key_respects (same document) inp) as H1.
  pose proof (configure_gemini_respects (same document) inp k) as H2.
  unfold respects, same in *. rewrite H2, H1; done.
Qed.

(** A pass with a file in the uploader, block by block: the sidebar and the
    upload block always run to their end; the two columns may not. *)
Lemma render_pass_run inp f s :
  pdf_uploader inp = Some f ->
  exists k gm,
    value (resolve_api_key inp s) = Ok k /\
    let s1 := state_after (resolve_api_key inp s) in
    value (configure_gemini inp k s1) = Ok gm /\
    let s2 := state_after (configure_gemini inp k s1) in
    let s3 := state_after (process_upload inp f s2) in
    let r := columns inp f gm s3 in
    render_pass inp s =
      Run (value r) (state_after r)
        (emitted (resolve_api_key inp s) ++ emitted (configure_gemini inp k s1)
         ++ emitted (process_upload inp f s2) ++ emitted r).
Proof.
  intros Hfile.
  destruct (resolve_api_key_total inp s) as [k Hk].
  destruct (configure_gemini_total inp k (state_after (resolve_api_key inp s)))
    as [gm Hgm].
  exists k, gm. split; [done|]. split; [done|]. cbv zeta.
  unfold render_pass.
  rewrite (bind_run _ _ _ _ Hk), (bind_run _ _ _ _ Hgm). simpl.
  unfold main_area. rewrite Hfile.
  destruct (process_upload_total inp f
              (state_after (configure_gemini inp k
                              (state_after (resolve_api_key inp s)))))
    as [[] Hv].
  rewrite (bind_run _ _ _ _ Hv). simpl. done.
Qed.

(** The upload block, pass by pass: a file whose identity is the stored one
    and whose text is stored is not extracted again, and its text and
    identity stay; a file with another identity gets exactly one extraction
    attempt, whose outcome (absent when it fails) replaces [pdf_text], the
    identity is stored, and the earlier summary is dropped: at the end of the
    pass there is no summary unless one was requested in this very pass. *)
Lemma upload_extracts_once_per_new_file (inp : inputs) (f : uploaded_file)
  (s : session_state) :
  pdf_uploader inp = Some f ->
  let r := render_pass inp s in
  (uploaded_file_id s = Some (file_id f) -> pdf_text s <> None ->
     count_events is_extraction (emitted r) = 0%nat /\
     pdf_text (state_after r) = pdf_text s /\
     uploaded_file_id (state_after r) = uploaded_file_id s) /\
  (uploaded_file_id s <> Some (file_id f) \/ pdf_text s = None ->
     count_events is_extraction (emitted r) = 1%nat /\
     pdf_text (state_after r) = extraction_result inp f /\
     uploaded_file_id (state_after r) = Some (file_id f) /\
     (summary (state_after r) = None \/
      (0 < count_events is_generation (emitted r))%nat)).
Proof.
  intros Hfile. cbv zeta.
  destruct (render_pass_run inp f s Hfile) as (k & gm & Hk & Hgm & ->).
  set (s1 := state_after (resolve_api_key inp s)) in *.
  set (s2 := state_after (configure_gemini inp k s1)).
  pose proof (sidebar_keeps_document inp s k gm Hk Hgm) as Hdoc.
  fold s1 s2 in Hdoc. unfold document in Hdoc.
  injection Hdoc as Htext Hsummary Hid.
  simpl.
  rewrite !count_events_app, resolve_api_key_no_extraction,
    configure_gemini_no_extraction, columns_no_extraction. simpl.
  assert (Ha : forall s3,
             (pdf_text (state_after (columns inp f gm s3)),
              uploaded_file_id (state_after (columns inp f gm s3)))
             = (pdf_text s3, uploaded_file_id s3)).
  { apply (columns_respects (same (fun s => (pdf_text s, uploaded_file_id s)))).
    apply analysis_and_details_respects;
      first [apply _ | intros; exact eq_refl]. }
  split.
  - intros Hsame Hpresent.
    rewrite process_upload_skips by congruence. simpl.
    injection (Ha s2) as Ht Hi. split; [done|]. split; congruence.
  - intros Hnew.
    destruct (process_upload_extracts inp f s2) as (Hv & Hst & Hcount).
    { destruct Hnew; [left|right]; congruence. }
    rewrite Hcount, Hst.
    set (s3 := set_uploaded_file_id _ _).
    injection (Ha s3) as Ht Hi.
    split; [lia|]. split; [done|]. split; [done|].
    destruct (columns_summary inp f gm s3) as [Hsum|Hreq].
    + left. by rewrite Hsum.
    + right. lia.
Qed.

(** C1: the code breaks the claim where the extraction of a file failed.
    The identity of the file is stored all the same (line 225), but the guard
    of line 219 also fires while no text is stored: every later pass with
    that same file extracts again, against the comment of line 218 ("only
    once per new file upload"). *)
Theorem failed_extraction_is_retried (inp : inputs) (f : uploaded_file)
  (s : session_state) :
  pdf_uploader inp = Some f ->
  uploaded_file_id s = Some (file_id f) ->
  pdf_text s = None ->
  let r := render_pass inp s in
  count_events is_extraction (emitted r) = 1%nat /\
  pdf_text (state_after r) = extraction_result inp f /\
  uploaded_file_id (state_after r) = Some (file_id f).
Proof.
  intros Hfile Hid Htext. cbv zeta.
  destruct (upload_extracts_once_per_new_file inp f s Hfile) as [_ Hnew].
  destruct (Hnew (or_intror Htext)) as (H1 & H2 & H3 & _). done.
Qed.

(** The PDF cannot be opened, and stays in the uploader for a second pass. *)
Lemma same_file_is_extracted_again :
  count_events is_extraction
    (emitted (render_pass unreadable_pdf
                (state_after (render_pass unreadable_pdf default_session_state))))
  = 1%nat.
Proof.
  apply (failed_extraction_is_retried unreadable_pdf a_pdf); reflexivity.
Defined.

(** ** The list of recorded hearings *)

Lemma date_compare_eq a b : date_compare a b = Eq <-> a = b.
Proof.
  destruct a as [ya ma da], b as [yb mb db]. unfold date_compare. simpl.
  destruct (Z.compare_spec ya yb); [|split; [done|intros [=]; lia]..].
  destruct (Z.compare_spec ma mb); [|split; [done|intros [=]; lia]..].
  destruct (Z.compare_spec da db); [|split; [done|intros [=]; lia]..].
  split; [intros _; congruence|done].
Qed.

Lemma date_ltb_irrefl a : date_ltb a a = false.
Proof.
  unfold date_ltb. by rewrite (proj2 (date_compare_eq a a) eq_refl).
Qed.

Lemma date_ltb_lt a b :
  date_ltb a b = true <->
  year a < year b \/
  (year a = year b /\ (month a < month b \/ (month a = month b /\ day a < day b))).
Proof.
  unfold date_ltb, date_compare.
  destruct (Z.compare_spec (year a) (year b));
    [destruct (Z.compare_spec (month a) (month b));
     [destruct (Z.compare_spec (day a) (day b))|..]|..];
    split; try done; try lia; intros _; lia.
Qed.

Lemma date_ltb_asym a b : date_ltb a b = true -> date_le a b.
Proof.
  intros H%date_ltb_lt. unfold date_le. apply not_true_is_false.
  intros H'%date_ltb_lt. lia.
Qed.

Lemma date_le_trans a b c : date_le a b -> date_le b c -> date_le a c.
Proof.
  unfold date_le. intros H1%not_true_iff_false H2%not_true_iff_false.
  apply not_true_is_false. rewrite date_ltb_lt in *. 
  destruct a, b, c; simpl in *. lia.
Qed.

Lemma dates_ltb_irrefl l : dates_ltb l l = false.
Proof.
  induction l as [|d l IH]; [done|]. simpl.
  unfold date_eqb. by rewrite (proj2 (date_compare_eq d d) eq_refl).
Qed.

Lemma string_ltb_irrefl s : String.ltb s s = false.
Proof.
  unfold String.ltb. pose proof (String.compare_antisym s s) as H.
  by destruct (String.compare s s).
Qed.

Lemma py_lt_irrefl k : py_lt k k <> Ok true.
Proof.
  destruct k; simpl; try done.
  - by rewrite string_ltb_irrefl.
  - by rewrite date_ltb_irrefl.
  - by rewrite dates_ltb_irrefl.
Qed.

Section SortedFacts.
Context {A : Type}.
Implicit Types (x y : pyval * A) (l r : list (pyval * A)).

Lemma insert_keyed_perm x l r : insert_keyed x l = Ok r -> r ≡ₚ x :: l.
Proof.
  revert r. induction l as [|y l IH]; intros r; simpl.
  - by intros [= <-].
  - destruct (py_lt y.1 x.1) as [[]|]; [|by intros [= <-]|done].
    destruct (insert_keyed x l) as [r'|]; [|done]. intros [= <-].
    rewrite (IH r' eq_refl). apply perm_swap.
Qed.

Lemma sort_keyed_perm l r : sort_keyed l = Ok r -> r ≡ₚ l.
Proof.
  revert r. induction l as [|x l IH]; intros r; simpl.
  - by intros [= <-].
  - destruct (sort_keyed l) as [r'|]; [|done]. intros H%insert_keyed_perm.
    by rewrite H, (IH r' eq_refl).
Qed.

(** Stability: inserting moves [x] past strictly smaller keys only, so the
    elements of any one key keep their order. *)
Lemma insert_keyed_stable (k : pyval) x l r :
  insert_keyed x l = Ok r ->
  filter (fun p => p.1 = k) r = filter (fun p => p.1 = k) (x :: l).
Proof.
  revert r. induction l as [|y l IH]; intros r; simpl.
  - by intros [= <-].
  - destruct (py_lt y.1 x.1) as [[]|] eqn:Hlt; [|by intros [= <-]|done].
    destruct (insert_keyed x l) as [r'|]; [|done]. intros [= <-].
    rewrite filter_cons, (IH r' eq_refl), !filter_cons.
    destruct (decide (y.1 = k)) as [Hy|Hy], (decide (x.1 = k)) as [Hx|Hx];
      try done.
    exfalso. rewrite Hy, Hx in Hlt. by apply (py_lt_irrefl k).
Qed.

Lemma sort_keyed_stable (k : pyval) l r :
  sort_keyed l = Ok r ->
  filter (fun p => p.1 = k) r = filter (fun p => p.1 = k) l.
Proof.
  revert r. induction l as [|x l IH]; intros r; simpl.
  - by intros [= <-].
  - destruct (sort_keyed l) as [r'|]; [|done].
    intros H%(insert_keyed_stable k). rewrite H, !filter_cons.
    by rewrite (IH r' eq_refl).
Qed.

(** With dates for keys no comparison raises, and the result is ascending. *)
Lemma insert_keyed_dates x l :
  date_keyed x -> Forall date_keyed l -> StronglySorted key_le l ->
  exists r, insert_keyed x l = Ok r /\ StronglySorted key_le r.
Proof.
  intros [a Ha] Hl Hs. induction l as [|y l IH]; simpl.
  - exists [x]. split; [done|]. by repeat constructor.
  - apply Forall_cons in Hl as [[b Hb] Hl].
    apply StronglySorted_inv in Hs as [Hs Hy].
    rewrite Hb, Ha. simpl. destruct (date_ltb b a) eqn:Hlt.
    + destruct (IH Hl Hs) as (r & Hr & Hsr). rewrite Hr.
      exists (y :: r). split; [done|]. constructor; [done|].
      rewrite (insert_keyed_perm _ _ _ Hr). constructor; [|done].
      exists b, a. by auto using date_ltb_asym.
    + exists (x :: y :: l). split; [done|].
      assert (Hxy : key_le x y) by (by exists a, b).
      constructor; [by constructor|]. constructor; [done|].
      eapply Forall_impl; [exact Hy|]. intros z (b' & c & Hb' & Hc & Hle).
      exists a, c. split; [done|]. split; [done|].
      rewrite Hb in Hb'. injection Hb' as <-.
      by apply (date_le_trans a b c).
Qed.

Lemma sort_keyed_dates l :
  Forall date_keyed l ->
  exists r, sort_keyed l = Ok r /\ StronglySorted key_le r.
Proof.
  induction l as [|x l IH]; intros Hl; simpl.
  - exists []. split; [done|constructor].
  - apply Forall_cons in Hl as [Hx Hl].
    destruct (IH Hl) as (r & Hr & Hs). rewrite Hr.
    apply insert_keyed_dates; [done| |done].
    by rewrite (sort_keyed_perm _ _ Hr).
Qed.
End SortedFacts.

Lemma well_formed_has_date h : is_Some (well_formed_date h) -> has_date h = true.
Proof.
  destruct h as [d|v]; simpl; [|by intros [? ?]].
  unfold dict_get. destruct (d !! "date") as [[]|]; simpl; by intros [? ?].
Qed.

Lemma well_formed_item_date h d :
  well_formed_date h = Some d <-> item_date h = Ok (PDate d).
Proof.
  destruct h as [m|v]; simpl; [|done].
  destruct (m !! "date") as [[]|]; simpl; split; intros; by simplify_eq.
Qed.

Lemma valid_hearings_typed l :
  dates_typed l ->
  valid_hearings l = filter (fun h => is_Some (well_formed_date h)) l.
Proof.
  unfold valid_hearings. induction 1 as [|h l Hh Hl IH]; [done|].
  rewrite !filter_cons, IH.
  destruct (decide (has_date h = true)) as [Hd|Hd],
           (decide (is_Some (well_formed_date h))) as [Hw|Hw]; try done.
  - destruct (Hw (Hh Hd)).
  - destruct Hd. by apply well_formed_has_date.
Qed.

Lemma decorate_dated l :
  Forall (fun h => is_Some (well_formed_date h)) l ->
  exists r, decorate item_date l = Ok r /\ r.*2 = l /\ Forall keyed_by_date r.
Proof.
  induction 1 as [|h l [d Hd] Hl (r & Hr & Hsnd & Hkeyed)]; simpl.
  - by exists [].
  - rewrite (proj1 (well_formed_item_date h d) Hd), Hr.
    exists ((PDate d, h) :: r). split; [done|]. split; [by rewrite <- Hsnd|].
    constructor; [by exists d | done].
Qed.

Lemma filter_keyed_by_date (d : date) (r : list (pyval * pyobj)) :
  Forall keyed_by_date r ->
  (filter (fun p => p.1 = PDate d) r).*2
  = filter (fun h => well_formed_date h = Some d) r.*2.
Proof.
  induction 1 as [|p r (x & Hk & Hw) Hr IH]; [done|].
  rewrite fmap_cons, !filter_cons, <- IH.
  destruct (decide (p.1 = PDate d)) as [H1|H1],
           (decide (well_formed_date p.2 = Some d)) as [H2|H2];
    try done; exfalso; congruence.
Qed.

(** What [sorted_hearings] returns when the dates are calendar dates: the
    records with a date, each once, ascending, and stable. *)
Lemma sorted_hearings_dated l :
  dates_typed l ->
  exists shown,
    sorted_hearings l = Ok shown /\
    shown ≡ₚ filter (fun h => is_Some (well_formed_date h)) l /\
    StronglySorted hearing_le shown /\
    forall d, filter (fun h => well_formed_date h = Some d) shown
              = filter (fun h => well_formed_date h = Some d) l.
Proof.
  intros Htyped. unfold sorted_hearings, sorted.
  rewrite (valid_hearings_typed l Htyped).
  set (valid := filter _ l).
  assert (Hvalid : Forall (fun h => is_Some (well_formed_date h)) valid).
  { apply Forall_forall. intros h Hh. by apply list_elem_of_filter in Hh as [? _]. }
  destruct (decorate_dated valid Hvalid) as (keyed & -> & Hsnd & Hkeyed).
  assert (Hdates : Forall date_keyed keyed).
  { eapply Forall_impl; [exact Hkeyed|]. intros p (d & Hd & _). by exists d. }
  destruct (sort_keyed_dates keyed Hdates) as (r & Hr & Hsorted). rewrite Hr.
  pose proof (sort_keyed_perm _ _ Hr) as Hperm.
  assert (Hkeyed' : Forall keyed_by_date r) by (by rewrite Hperm).
  exists r.*2. split; [done|]. split; [by rewrite Hperm, Hsnd|]. split.
  - clear Hr Hperm. induction Hsorted as [|p r Hs IH Hp]; [constructor|].
    apply Forall_cons in Hkeyed' as [(d & Hd & Hw) Hk].
    simpl. constructor; [by apply IH|].
    apply Forall_fmap.
    eapply Forall_impl; [exact (proj2 (Forall_and _ _) (conj Hp Hk))|].
    intros q [(a & b & Ha & Hb & Hle) (c & Hc & Hwc)]. simpl.
    exists d, c. split; [done|]. split; [done|]. congruence.
  - intros d. rewrite <- (filter_keyed_by_date d r Hkeyed').
    rewrite (sort_keyed_stable (PDate d) _ _ Hr).
    rewrite (filter_keyed_by_date d keyed Hkeyed), Hsnd.
    unfold valid. rewrite list_filter_filter. apply list_filter_iff.
    intros h. split; [by intros [? _]|]. intros Hh. split; [done|]. by rewrite Hh.
Qed.

Lemma shown_rows_hearing_events n l :
  Forall (fun h => is_Some (well_formed_date h)) l ->
  shown_rows (hearing_events n l) = numbered_rows n l.
Proof.
  intros Hl. revert n. induction Hl as [|h l [d Hd] Hl IH]; intros n; [done|].
  simpl. rewrite Hd. simpl. by rewrite IH.
Qed.

Lemma for_each_show_hearing n l s :
  Forall (fun h => is_Some (well_formed_date h)) l ->
  for_each (imap (fun i h => ((n + i)%nat, h)) l) show_hearing s
  = Run (Ok tt) s (hearing_events n l).
Proof.
  intros Hl. revert n. induction Hl as [|h l [d Hd] Hl IH]; intros n; [done|].
  simpl. unfold show_hearing at 1. run_block.
  rewrite (proj1 (well_formed_item_date h d) Hd), Hd. simpl.
  rewrite (imap_ext _ (fun i h => ((S n + i)%nat, h))) by (intros; simpl; f_equal; lia).
  rewrite IH. simpl. by rewrite Nat.add_0_r.
Qed.

Lemma display_hearings_dated s shown :
  sorted_hearings (hearings s) = Ok shown ->
  Forall (fun h => is_Some (well_formed_date h)) shown ->
  value (display_hearings s) = Ok tt /\
  state_after (display_hearings s) = s /\
  shown_rows (emitted (display_hearings s)) = numbered_rows 0 shown.
Proof.
  intros Hsorted Hshown. unfold display_hearings. run_block.
  destruct (hearings s) as [|h l] eqn:Hl.
  - simpl. by injection Hsorted as <-.
  - rewrite Hsorted. simpl. unfold enumerate.
    pose proof (for_each_show_hearing 0 shown s Hshown) as Hrun.
    simpl in Hrun. rewrite Hrun. simpl.
    by rewrite shown_rows_hearing_events.
Qed.

(** C10: the sort is stable.  For stored records whose dates are calendar
    dates, the records of any one date appear in the displayed list in the
    order in which they are stored. *)
Theorem display_order_is_stable (s : session_state) :
  dates_typed (hearings s) ->
  exists shown,
    sorted_hearings (hearings s) = Ok shown /\
    shown_rows (emitted (display_hearings s)) = numbered_rows 0 shown /\
    forall d,
      filter (fun h => well_formed_date h = Some d) shown
      = filter (fun h => well_formed_date h = Some d) (hearings s).
Proof.
  intros Htyped.
  destruct (sorted_hearings_dated _ Htyped) as (shown & Hs & Hperm & _ & Hstable).
  exists shown. split; [done|]. split; [|done].
  apply (display_hearings_dated s shown Hs).
  rewrite Hperm. apply Forall_forall. intros h Hh.
  by apply list_elem_of_filter in Hh as [? _].
Qed.

(** *** The stored records are always of that kind *)

Lemma add_hearing_keeps_dates_typed inp :
  respects (stays (fun s => dates_typed (hearings s))) (add_hearing inp).
Proof.
  intros s Htyped. unfold add_hearing. run_block.
  destruct (button inp "add_hearing_btn" false); simpl; [|done].
  destruct (date_input inp "new_hearing_date" None) as [d|]; simpl; [|done].
  destruct (str_truthy (text_area inp "new_hearing_summary" (PStr ""))); simpl;
    [|done].
  unfold dates_typed in *. apply Forall_app. split; [done|].
  constructor; [|done]. intros _. exists d. simpl.
  by rewrite lookup_insert_eq.
Qed.

Lemma render_pass_keeps_dates_typed inp :
  respects (stays (fun s => dates_typed (hearings s))) (render_pass inp).
Proof.
  unfold render_pass. apply respects_bind; [apply _| |intros key].
  { apply resolve_api_key_respects; [apply _|untouched..]. }
  apply respects_bind; [apply _| |intros gemini_model].
  { apply configure_gemini_respects; [apply _|untouched..]. }
  apply main_area_respects_via; [apply _|untouched..| |].
  - apply edit_timeline_respects; [apply _|untouched].
  - apply add_hearing_keeps_dates_typed.
Qed.

Lemma run_passes_reachable (passes : list inputs) (s : session_state) :
  reachable s -> reachable (run_passes passes s).
Proof.
  revert s. induction passes as [|inp passes IH]; intros s Hs; [done|].
  simpl. apply IH. by constructor.
Qed.

(** Whatever the user does, starting from the initial session. *)
Lemma reachable_dates_typed (s : session_state) :
  reachable s -> dates_typed (hearings s).
Proof.
  induction 1 as [|inp s _ IH|widget s _ IH].
  - constructor.
  - by apply render_pass_keeps_dates_typed.
  - by destruct widget.
Qed.

(** C4, with "ascending" for "strict ascending": showing the hearings
    leaves the session state, so every stored record, as it is; the rows
    shown are exactly the stored records that have a date, each once,
    numbered from 1, in ascending order of date, where records of the same
    date follow one another.  The order is stated for sequences whose dates
    are calendar dates or missing, and every sequence the application can
    have stored is one. *)
Theorem display_shows_dated_hearings_ascending (s : session_state) :
  let r := display_hearings s in
  state_after r = s /\
  (reachable s -> dates_typed (hearings s)) /\
  (dates_typed (hearings s) ->
   exists shown,
     shown_rows (emitted r) = numbered_rows 0 shown /\
     shown ≡ₚ filter (fun h => is_Some (well_formed_date h)) (hearings s) /\
     StronglySorted hearing_le shown).
Proof.
  cbv zeta. split; [|split].
  - apply (display_hearings_respects (same id)).
  - apply reachable_dates_typed.
  - intros Htyped.
    destruct (sorted_hearings_dated _ Htyped) as (shown & Hs & Hperm & Hsorted & _).
    exists shown. split; [|done].
    apply (display_hearings_dated s shown Hs).
    rewrite Hperm. apply Forall_forall. intros h Hh.
    by apply list_elem_of_filter in Hh as [? _].
Qed.

Lemma display_shows_dated_hearings_witness :
  exists shown,
    shown_rows (emitted (display_hearings undated_among_hearings))
      = numbered_rows 0 shown /\
    shown ≡ₚ filter (fun h => is_Some (well_formed_date h))
               (hearings undated_among_hearings) /\
    StronglySorted hearing_le shown.
Proof.
  apply (display_shows_dated_hearings_ascending undated_among_hearings).
  unfold dates_typed. apply (bool_decide_unpack _). vm_compute. exact I.
Defined.

Lemma display_order_is_stable_witness :
  exists shown,
    sorted_hearings (hearings three_hearings) = Ok shown /\
    shown_rows (emitted (display_hearings three_hearings))
      = numbered_rows 0 shown /\
    forall d,
      filter (fun h => well_formed_date h = Some d) shown
      = filter (fun h => well_formed_date h = Some d) (hearings three_hearings).
Proof.
  apply (display_order_is_stable three_hearings).
  unfold dates_typed. apply (bool_decide_unpack _). vm_compute. exact I.
Defined.

(** What the user sees for them: the January hearing first, then the two of
    2 May in the order in which they were entered. *)
Example three_hearings_rows :
  shown_rows (emitted (display_hearings three_hearings))
  = [ (1, Date 2024 1 10, PStr "Admitted");
      (2, Date 2024 5 2, PStr "Adjourned");
      (3, Date 2024 5 2, PStr "Arguments heard") ].
Proof. vm_compute. reflexivity. Qed.

(** C4 as stated fails on the word "strict": two hearings of the same day
    are both displayed, one after the other, and their dates are equal. *)
Lemma equal_dates_are_not_strictly_ascending :
  ~ StronglySorted (fun a b => date_ltb a.1.2 b.1.2 = true)
      (shown_rows (emitted (display_hearings three_hearings))).
Proof.
  rewrite three_hearings_rows. intros H.
  apply StronglySorted_inv in H as [H _].
  apply StronglySorted_inv in H as [_ H].
  apply Forall_cons in H as [H _]. vm_compute in H. discriminate.
Qed.

(** * Further properties of the script *)

(** ** What can stop a render pass *)

Lemma show_summary_total disabled : total (show_summary disabled).
Proof. unfold show_summary. walk_total. Qed.

Lemma edit_case_details_total inp : total (edit_case_details inp).
Proof. unfold edit_case_details, edit_case_text. walk_total. Qed.

Lemma edit_timeline_total inp : total (edit_timeline inp).
Proof. unfold edit_timeline. walk_total. Qed.

Lemma add_hearing_total inp : total (add_hearing inp).
Proof.
  intros s. unfold add_hearing. run_block.
  destruct (button inp "add_hearing_btn" false); simpl; [|by eexists].
  destruct (date_input inp "new_hearing_date" None); simpl; [|by eexists].
  destruct (str_truthy (text_area inp "new_hearing_summary" (PStr ""))); simpl;
    by eexists.
Qed.

Lemma raises_only_total P E {A} (m : M A) : total m -> raises_only P E m.
Proof. intros Hm s e _ He. destruct (Hm s) as [a Ha]. congruence. Qed.

Lemma raises_only_bind P E {A B} (m : M A) (k : A -> M B) :
  raises_only P E m -> respects (stays P) m ->
  (forall a, raises_only P E (k a)) ->
  raises_only P E (bind m k).
Proof.
  intros Hm Hstay Hk s e HP. unfold bind.
  specialize (Hm s). specialize (Hstay s HP).
  destruct (m s) as [[a|e'] s1 t1]; simpl in *.
  - specialize (Hk a s1 e Hstay). destruct (k a s1) as [v s2 t2]. exact Hk.
  - intros [= <-]. by apply Hm.
Qed.

(** The viewer block raises only when the component fails. *)
Lemma show_pdf_raises P inp f :
  pdf_uploader inp = Some f ->
  raises_only P (pass_stopped inp) (show_pdf inp f).
Proof.
  intros Hfile s e _. unfold show_pdf. run_block.
  destruct (pdf_viewer inp (content f)) as [[]|e0] eqn:Hview; simpl; [done|].
  intros [= <-]. left. split; [done|]. by exists f, e0.
Qed.

(** The summarizer raises only on a remote error that gets the quota hint. *)
Lemma summarize_raises inp txt mdl s e :
  value (summarize_with_gemini inp txt mdl s) = Raise e ->
  e = not_an_emoji quota_icon /\
  exists m t e0,
    mdl = Some m /\ txt = Some t /\
    remote_error inp m t e0 /\ gets_quota_hint e0 = true.
Proof.
  unfold summarize_with_gemini. run_block.
  destruct (gemini_configured s); simpl; [|done].
  destruct mdl as [m|]; simpl; [|done].
  destruct txt as [t|]; simpl; [|done].
  destruct (str_truthy t); simpl; [|done].
  destruct (len t <? 50); simpl; [done|].
  fold (build_prompt (str_take max_chars t)).
  assert (Hhint : forall e0 : exn,
             str_contains "API key not valid" (str_of_exn e0) = false ->
             str_contains "quota" (str_lower (str_of_exn e0)) = true ->
             gets_quota_hint e0 = true).
  { intros e0 H1 H2. unfold gets_quota_hint. by rewrite H1, H2. }
  destruct (len t >? max_chars); simpl;
    (destruct (generate_content inp m _ safety_settings) as [resp|e0] eqn:Hgen;
     simpl;
     [destruct (parts resp) as [[|p ps]|e1] eqn:Hparts; simpl;
      [by destruct (block_details resp)
      |destruct (text resp) as [?|e2] eqn:Htext; simpl; [done|];
       destruct (str_contains "API key not valid" (str_of_exn e2)) eqn:Hk;
         simpl; [done|];
       destruct (str_contains "quota" (str_lower (str_of_exn e2))) eqn:Hq;
         simpl; [|done];
       intros [= <-]; split; [done|]; exists m, t, e2;
       split; [done|]; split; [done|]; split; [|by apply Hhint];
       right; exists resp; split; [done|]; right; split; [by eauto|done]
      |destruct (str_contains "API key not valid" (str_of_exn e1)) eqn:Hk;
         simpl; [done|];
       destruct (str_contains "quota" (str_lower (str_of_exn e1))) eqn:Hq;
         simpl; [|done];
       intros [= <-]; split; [done|]; exists m, t, e1;
       split; [done|]; split; [done|]; split; [|by apply Hhint];
       right; exists resp; split; [done|]; by left]
     |destruct (str_contains "API key not valid" (str_of_exn e0)) eqn:Hk;
        simpl; [done|];
      destruct (str_contains "quota" (str_lower (str_of_exn e0))) eqn:Hq;
        simpl; [|done];
      intros [= <-]; split; [done|]; exists m, t, e0;
      split; [done|]; split; [done|]; split; [by left|by apply Hhint]]).
Qed.

Lemma generate_summary_raises P inp gemini_model :
  raises_only P (pass_stopped inp) (generate_summary inp gemini_model).
Proof.
  intros s e _.
  pose proof (summarize_raises inp (pdf_text s) gemini_model s) as Hsum.
  unfold generate_summary. run_block.
  destruct (button inp _ _); simpl; [|done].
  destruct (negb (bool_decide (gemini_model = None)) && opt_truthy (pdf_text s));
    simpl; [|by destruct (negb (opt_truthy (pdf_text s)))].
  destruct (summarize_with_gemini inp (pdf_text s) gemini_model s)
    as [[o|e'] s1 t1]; simpl in *.
  - by destruct (opt_truthy o).
  - intros [= <-]. destruct (Hsum e' eq_refl) as (-> & m & t & e0 & _ & _ & H).
    right. split; [done|]. by exists m, t, e0.
Qed.

(** The list of hearings is shown without an exception when the dates of
    the stored records are calendar dates. *)
Lemma display_hearings_raises E :
  raises_only (fun s => dates_typed (hearings s)) E display_hearings.
Proof.
  intros s e Htyped.
  destruct (sorted_hearings_dated _ Htyped) as (shown & Hs & Hperm & _).
  destruct (display_hearings_dated s shown Hs) as [Hv _]; [|congruence].
  rewrite Hperm. apply Forall_forall. intros h Hh.
  by apply list_elem_of_filter in Hh as [? _].
Qed.

Lemma render_pass_raises inp :
  raises_only (fun s => dates_typed (hearings s)) (pass_stopped inp)
    (render_pass inp).
Proof.
  unfold render_pass.
  apply raises_only_bind; [| |intros key].
  { apply raises_only_total, resolve_api_key_total. }
  { apply resolve_api_key_respects; [apply _|untouched..]. }
  apply raises_only_bind; [| |intros gemini_model].
  { apply raises_only_total, configure_gemini_total. }
  { apply configure_gemini_respects; [apply _|untouched..]. }
  unfold main_area. destruct (pdf_uploader inp) as [f|] eqn:Hfile;
    [|apply raises_only_total, total_emit].
  apply raises_only_bind; [| |intros _].
  { apply raises_only_total, process_upload_total. }
  { apply process_upload_respects; [apply _|untouched..]. }
  apply raises_only_bind; [| |intros _].
  { by apply show_pdf_raises. }
  { apply show_pdf_respects, _. }
  unfold analysis_and_details.
  apply raises_only_bind; [| |intros s0].
  { apply raises_only_total, total_get. }
  { apply respects_get, _. }
  apply raises_only_bind; [| |intros _].
  { apply generate_summary_raises. }
  { apply generate_summary_respects; [apply _|untouched]. }
  apply raises_only_bind; [| |intros _].
  { apply raises_only_total, show_summary_total. }
  { apply show_summary_respects, _. }
  unfold manual_entry.
  apply raises_only_bind; [| |intros _].
  { apply raises_only_total, edit_case_details_total. }
  { apply edit_case_details_respects; [apply _|untouched]. }
  apply raises_only_bind; [| |intros _].
  { apply raises_only_total, edit_timeline_total. }
  { apply edit_timeline_respects; [apply _|untouched]. }
  apply raises_only_bind; [| |intros _].
  { apply raises_only_total, add_hearing_total. }
  { apply add_hearing_keeps_dates_typed. }
  apply display_hearings_raises.
Qed.

(** X1: a render pass ends in an exception only when Streamlit refuses the
    icon of an error message.  In every reachable session, an exception that
    leaves a pass is the refusal of the icon of line 242, after the viewer
    component failed, or of the icon of line 207, after a request for a
    summary ended in an exception that gets the quota hint.  Whatever else
    the secrets store, the Gemini SDK, PyMuPDF or the viewer raise is caught,
    and the handler of line 342 is not reached. *)
Theorem render_pass_stops_only_on_refused_icon (inp : inputs)
  (s : session_state) (e : exn) :
  reachable s ->
  value (render_pass inp s) = Raise e ->
  pass_stopped inp e.
Proof.
  intros Hs. apply render_pass_raises. by apply reachable_dates_typed.
Qed.

Lemma render_pass_stops_witness :
  pass_stopped broken_viewer (not_an_emoji viewer_icon).
Proof.
  apply (render_pass_stops_only_on_refused_icon broken_viewer
           default_session_state).
  - constructor.
  - vm_compute. reflexivity.
Defined.

(** ** Invariants of the reachable sessions *)

(** A render pass respects [R] as soon as the blocks that write the session
    do; the display-only blocks need no argument. *)
Lemma render_pass_respects_blocks R `{!PreOrder R} inp :
  respects R (resolve_api_key inp) ->
  (forall key, respects R (configure_gemini inp key)) ->
  (forall f, respects R (process_upload inp f)) ->
  (forall gemini_model, respects R (generate_summary inp gemini_model)) ->
  respects R (edit_case_details inp) ->
  respects R (edit_timeline inp) ->
  respects R (add_hearing inp) ->
  respects R (render_pass inp).
Proof.
  intros. unfold render_pass, main_area, analysis_and_details, manual_entry.
  walk_respects;
    auto using show_pdf_respects, show_summary_respects,
      display_hearings_respects.
Qed.

Lemma reachable_stays (P : session_state -> Prop) :
  P default_session_state ->
  (forall inp, respects (stays P) (render_pass inp)) ->
  (forall widget s, P s -> P (on_change_pdf_uploader widget s)) ->
  forall s, reachable s -> P s.
Proof.
  intros Hinit Hpass Hchange s. induction 1 as [|inp s _ IH|widget s _ IH].
  - exact Hinit.
  - by apply Hpass.
  - by apply Hchange.
Qed.

Ltac untouched_by :=
  intros; unfold stays, same;
  first [ reflexivity
        | let H := fresh in intros H; exact H
        | simpl; tauto ].

Ltac frame_blocks :=
  intros;
  first
    [ apply resolve_api_key_respects | apply configure_gemini_respects
    | apply process_upload_respects | apply generate_summary_respects
    | apply edit_case_details_respects | apply edit_timeline_respects
    | apply add_hearing_respects ];
  first [ by apply _ | untouched_by ].

Lemma configure_gemini_configured_without_error inp key :
  respects (stays configured_without_error) (configure_gemini inp key).
Proof.
  intros s Hs. unfold configured_without_error in *.
  unfold configure_gemini. run_block.
  destruct (opt_truthy key); simpl;
    destruct (gemini_configured s) eqn:Hc; simpl;
    try destruct (bool_decide (gemini_error s = None)); simpl;
    try destruct (genai_configure inp (default "" key)); simpl;
    try destruct (genai_GenerativeModel inp model_id); simpl;
    try destruct (opt_truthy (gemini_error s)); simpl;
    rewrite ?Hc; auto; done.
Qed.

(** X2: in every reachable session the configured flag and the stored error
    exclude one another: [gemini_configured] is true only if [gemini_error]
    is [None]. *)
Theorem configured_excludes_error (s : session_state) :
  reachable s -> gemini_configured s = true -> gemini_error s = None.
Proof.
  intros Hs. revert s Hs.
  apply (reachable_stays configured_without_error).
  - done.
  - intros inp. apply render_pass_respects_blocks; [apply _|..];
      try (intros; apply configure_gemini_configured_without_error);
      try frame_blocks.
    apply resolve_api_key_respects; [apply _|untouched_by|].
    intros s0. unfold stays, configured_without_error. simpl. done.
  - intros [f|] s H; exact H.
Qed.

Lemma configured_excludes_error_witness :
  gemini_error (state_after (render_pass accepted_key default_session_state))
  = None.
Proof.
  apply configured_excludes_error.
  - repeat constructor.
  - vm_compute. reflexivity.
Defined.

Lemma process_upload_document_consistent inp f :
  respects (stays document_consistent) (process_upload inp f).
Proof.
  intros s Hs. unfold process_upload, extract_text_from_pdf. run_block.
  destruct (bool_decide (pdf_text s = None)
            || negb (bool_decide (Some (file_id f) = uploaded_file_id s)));
    simpl; [|done].
  destruct (fitz_pages inp (content f)) as [pages|e]; simpl;
    [destruct (foldl _ _ pages); simpl|]; by split.
Qed.

Lemma generate_summary_document_consistent inp gemini_model :
  respects (stays document_consistent) (generate_summary inp gemini_model).
Proof.
  intros s Hs.
  pose proof (summarize_respects (same id) inp (pdf_text s) gemini_model s) as Hst.
  unfold same in Hst. simpl in Hst.
  unfold generate_summary. run_block.
  destruct (button inp _ _); simpl; [|done].
  destruct (negb (bool_decide (gemini_model = None))); simpl;
    [|by destruct (negb (opt_truthy (pdf_text s)))].
  destruct (opt_truthy (pdf_text s)) eqn:Htext; simpl; [|done].
  destruct (summarize_with_gemini inp (pdf_text s) gemini_model s)
    as [[o|e] s1 t1]; simpl in *; subst s1; [|done].
  destruct (opt_truthy o) eqn:Ho; simpl; [|done].
  destruct Hs as [_ Hid]. split; [done|exact Hid].
Qed.

(** X3: in every reachable session the three document fields fit together:
    a stored summary is a non-empty text and comes with a non-empty
    [pdf_text], and a stored [pdf_text] comes with an [uploaded_file_id]. *)
Theorem document_fields_consistent (s : session_state) :
  reachable s ->
  (summary s <> None ->
   opt_truthy (summary s) = true /\ opt_truthy (pdf_text s) = true) /\
  (pdf_text s <> None -> uploaded_file_id s <> None).
Proof.
  intros Hs. revert s Hs.
  apply (reachable_stays document_consistent).
  - by split.
  - intros inp. apply render_pass_respects_blocks; [apply _|..];
      try (intros; apply process_upload_document_consistent);
      try (intros; apply generate_summary_document_consistent);
      frame_blocks.
  - intros [f|] s H; [exact H|]. by split.
Qed.

Lemma document_fields_consistent_witness :
  opt_truthy
    (pdf_text (state_after (render_pass summarize_judgement default_session_state)))
  = true.
Proof.
  apply (document_fields_consistent
           (state_after (render_pass summarize_judgement default_session_state))).
  - repeat constructor.
  - vm_compute. discriminate.
Defined.

#[global] Instance hearings_kept_preorder : PreOrder hearings_kept.
Proof.
  split; unfold hearings_kept.
  - by intros s.
  - intros a b c Hab Hbc. by etrans.
Qed.

Lemma add_hearing_keeps_hearings inp : respects hearings_kept (add_hearing inp).
Proof.
  intros s. unfold hearings_kept, add_hearing. run_block.
  destruct (button inp "add_hearing_btn" false); simpl; [|done].
  destruct (date_input inp "new_hearing_date" None); simpl; [|done].
  destruct (str_truthy (text_area inp "new_hearing_summary" (PStr ""))); simpl;
    [|done].
  by apply prefix_app_r.
Qed.

Lemma render_pass_keeps_hearings inp : respects hearings_kept (render_pass inp).
Proof.
  apply render_pass_respects_blocks; [apply _|..];
    try apply add_hearing_keeps_hearings;
    intros;
    first
      [ apply resolve_api_key_respects | apply configure_gemini_respects
      | apply process_upload_respects | apply generate_summary_respects
      | apply edit_case_details_respects | apply edit_timeline_respects ];
    first [ by apply _ | intros; unfold hearings_kept; simpl; reflexivity ].
Qed.

(** X4: the hearings are append-only.  Whatever happens in any number of
    render passes, the records stored before are still stored afterwards,
    unchanged, first and in the same order; removing the uploaded file does
    not touch them either. *)
Theorem hearings_are_append_only (passes : list inputs)
  (widget : option uploaded_file) (s : session_state) :
  hearings s `prefix_of` hearings (run_passes passes s) /\
  hearings (on_change_pdf_uploader widget s) = hearings s.
Proof.
  split; [|by destruct widget].
  revert s. induction passes as [|inp passes IH]; intros s; [done|].
  simpl. etrans; [apply (render_pass_keeps_hearings inp s)|apply IH].
Qed.

Lemma edit_timeline_keeps_other_key_dates inp :
  respects (stays (fun s => timeline s !! "other_key_dates" = Some (PList [])))
    (edit_timeline inp).
Proof.
  intros s Hs. unfold edit_timeline. run_block.
  by rewrite !lookup_insert_ne.
Qed.

(** X5: the reserved [other_key_dates] entry of the timeline is never
    written: in every reachable session it is still the empty list. *)
Theorem other_key_dates_never_written (s : session_state) :
  reachable s -> timeline s !! "other_key_dates" = Some (PList []).
Proof.
  intros Hs. revert s Hs.
  apply (reachable_stays
           (fun s => timeline s !! "other_key_dates" = Some (PList []))).
  - done.
  - intros inp. apply render_pass_respects_blocks; [apply _|..];
      try apply edit_timeline_keeps_other_key_dates; frame_blocks.
  - intros [f|] s H; exact H.
Qed.

Lemma other_key_dates_never_written_witness :
  timeline (run_passes [pick_judgement_date; summarize_judgement]
              default_session_state) !! "other_key_dates"
  = Some (PList []).
Proof.
  apply other_key_dates_never_written.
  apply run_passes_reachable. constructor.
Defined.

(** ** When the SDK is not called *)

Lemma resolve_api_key_no_sdk_setup inp : silent is_sdk_setup (resolve_api_key inp).
Proof. unfold resolve_api_key. walk_silent. Qed.

Lemma resolve_api_key_no_generation inp :
  silent is_generation (resolve_api_key inp).
Proof. unfold resolve_api_key. walk_silent. Qed.

Lemma main_area_no_sdk_setup inp gemini_model :
  silent is_sdk_setup (main_area inp gemini_model).
Proof.
  unfold main_area, process_upload, extract_text_from_pdf, show_pdf,
    analysis_and_details, generate_summary, summarize_with_gemini,
    show_summary, manual_entry, edit_case_details, edit_case_text,
    edit_timeline, add_hearing, display_hearings, show_hearing.
  walk_silent.
Qed.

Lemma generate_summary_no_model inp s :
  count_events is_generation (emitted (generate_summary inp None s)) = 0%nat.
Proof.
  unfold generate_summary. run_block.
  destruct (button inp _ _); simpl; [|done].
  by destruct (negb (opt_truthy (pdf_text s))).
Qed.

Lemma main_area_no_model_no_generation inp :
  silent is_generation (main_area inp None).
Proof.
  unfold main_area, analysis_and_details.
  destruct (pdf_uploader inp) as [f|]; [|walk_silent].
  apply silent_bind.
  { unfold process_upload, extract_text_from_pdf. walk_silent. }
  intros _. apply silent_bind. { unfold show_pdf. walk_silent. }
  intros _. apply silent_bind; [apply silent_get|]. intros s0. cbv zeta.
  apply silent_bind. { intros s. apply generate_summary_no_model. }
  intros _.
  unfold show_summary, manual_entry, edit_case_details, edit_case_text,
    edit_timeline, add_hearing, display_hearings, show_hearing.
  walk_silent.
Qed.

(** A configuration block that is given no key, or finds an unresolved
    failure, calls nothing and yields no model. *)
Lemma configure_gemini_idle inp key s :
  opt_truthy key = false \/ (exists msg, config_failed msg s) ->
  value (configure_gemini inp key s) = Ok None /\
  state_after (configure_gemini inp key s) = s /\
  count_events is_sdk_setup (emitted (configure_gemini inp key s)) = 0%nat /\
  count_events is_generation (emitted (configure_gemini inp key s)) = 0%nat.
Proof.
  intros Hidle. unfold configure_gemini. run_block.
  assert (opt_truthy key && negb (gemini_configured s)
          && bool_decide (gemini_error s = None) = false) as ->.
  { destruct Hidle as [->|(msg & Hc & He)]; [done|].
    rewrite He. simpl. apply andb_false_r. }
  assert (gemini_configured s && opt_truthy key = false) as ->.
  { destruct Hidle as [->|(msg & -> & He)]; [apply andb_false_r|done]. }
  by destruct (opt_truthy (gemini_error s)).
Qed.

(** What a pass does once the configuration block has stayed idle. *)
Lemma render_pass_without_model inp s key :
  value (resolve_api_key inp s) = Ok key ->
  opt_truthy key = false \/
    (exists msg, config_failed msg (state_after (resolve_api_key inp s))) ->
  count_events is_sdk_setup (emitted (render_pass inp s)) = 0%nat /\
  count_events is_generation (emitted (render_pass inp s)) = 0%nat /\
  gemini_configured (state_after (render_pass inp s))
  = gemini_configured (state_after (resolve_api_key inp s)).
Proof.
  intros Hkey Hidle. unfold render_pass.
  rewrite (bind_run _ _ _ _ Hkey).
  set (s1 := state_after (resolve_api_key inp s)) in *.
  destruct (configure_gemini_idle inp key s1 Hidle) as (Hv & Hst & Hq1 & Hq2).
  rewrite (bind_run _ _ _ _ Hv). simpl. rewrite Hst.
  rewrite !count_events_app, Hq1, Hq2,
    resolve_api_key_no_sdk_setup, resolve_api_key_no_generation,
    main_area_no_sdk_setup, main_area_no_model_no_generation.
  split; [done|]. split; [done|].
  apply (main_area_respects (same gemini_configured)); by intros.
Qed.

(** X6: a failed configuration is final.  Once a failure is stored, no later
    render pass, whatever key it supplies, calls the SDK again, neither to
    configure nor to generate, and [gemini_configured] stays false. *)
Theorem failed_configuration_is_never_retried (msg : string)
  (passes : list inputs) (inp : inputs) (s : session_state) :
  gemini_configured s = false -> gemini_error s = Some msg ->
  let r := render_pass inp (run_passes passes s) in
  count_events is_sdk_setup (emitted r) = 0%nat /\
  count_events is_generation (emitted r) = 0%nat /\
  gemini_configured (state_after r) = false.
Proof.
  intros Hc He. simpl.
  assert (Hs : config_failed msg (run_passes passes s))
    by (by apply run_passes_failed_stays).
  set (s' := run_passes passes s) in *.
  destruct (resolve_api_key_total inp s') as [key Hkey].
  assert (H1 : config_failed msg (state_after (resolve_api_key inp s'))).
  { revert Hs. apply (resolve_api_key_respects (stays (config_failed msg)));
      untouched. }
  destruct (render_pass_without_model inp s' key Hkey) as (Hq1 & Hq2 & Hcfg).
  { right. by exists msg. }
  split; [done|]. split; [done|]. rewrite Hcfg. by destruct H1.
Qed.

(** After the rejected key, the user types a key the SDK would accept. *)
Lemma failed_configuration_witness :
  count_events is_sdk_setup
    (emitted (render_pass accepted_key
                (run_passes [idle]
                   (state_after (render_pass rejected_key default_session_state)))))
  = 0%nat.
Proof.
  apply (failed_configuration_is_never_retried "API key not valid" [idle]
           accepted_key
           (state_after (render_pass rejected_key default_session_state)));
    vm_compute; reflexivity.
Defined.

(** X7: without a key (none in the secrets, none typed) a render pass calls
    the SDK neither to configure nor to generate, and leaves
    [gemini_configured] false. *)
Theorem no_key_no_sdk_call (inp : inputs) (s : session_state) :
  value (resolve_api_key inp s) = Ok None ->
  let r := render_pass inp s in
  count_events is_sdk_setup (emitted r) = 0%nat /\
  count_events is_generation (emitted r) = 0%nat /\
  gemini_configured (state_after r) = false.
Proof.
  intros Hkey. simpl.
  destruct (render_pass_without_model inp s None Hkey) as (Hq1 & Hq2 & Hcfg);
    [by left|].
  split; [done|]. split; [done|]. rewrite Hcfg.
  revert Hkey. unfold resolve_api_key. run_block.
  destruct (secrets_get inp) as [[k|]|e]; simpl;
    repeat (case_match; simpl); intros; by simplify_eq.
Qed.

Lemma no_key_witness :
  gemini_configured (state_after (render_pass idle configured_session)) = false.
Proof.
  apply (no_key_no_sdk_call idle configured_session). reflexivity.
Defined.

(** ** The summary button *)

Lemma len_app (a b : string) : len (a +:+ b) = len a + len b.
Proof.
  unfold len. induction a as [|c a IH]; simpl; [done|].
  change (String.length (String.append a b)) with (String.length (a +:+ b)).
  lia.
Qed.

Lemma count_events_nil p : count_events p [] = 0%nat.
Proof. done. Qed.

Ltac count_trace :=
  repeat first [ rewrite count_events_cons | rewrite count_events_app
               | rewrite count_events_nil ];
  cbn [is_generation is_extraction is_sdk_setup Nat.add].

(** The summarizer sends one request when it is ready and none otherwise. *)
Lemma summarize_request_count inp txt mdl s :
  count_events is_generation (emitted (summarize_with_gemini inp txt mdl s))
  = if ready_to_summarize s txt mdl then 1%nat else 0%nat.
Proof.
  unfold summarize_with_gemini, ready_to_summarize. run_block.
  destruct (gemini_configured s); simpl; [|done].
  destruct (bool_decide (mdl = None)); simpl; [done|].
  destruct (opt_truthy txt); simpl; [|done].
  destruct (len (default "" txt) <? 50); simpl; [done|].
  destruct (len (default "" txt) >? max_chars); simpl;
    (destruct (generate_content inp _ _ _) as [resp|e]; simpl;
     [destruct (parts resp) as [[|? ?]|e']; simpl;
      [destruct (block_details resp); simpl
      |destruct (text resp) as [?|e]; simpl; [|api_error_cases e]
      |api_error_cases e']
     |api_error_cases e]);
    by rewrite ?count_events_cons.
Qed.

Lemma ready_to_summarize_true s txt mdl :
  ready_to_summarize s txt mdl = true ->
  gemini_configured s = true /\ mdl <> None /\
  exists t, txt = Some t /\ 50 <= len t.
Proof.
  unfold ready_to_summarize.
  intros [[[Hc Hm%negb_true_iff]%andb_true_iff Ht]%andb_true_iff
            Hl%negb_true_iff]%andb_true_iff.
  split; [done|]. split; [by apply bool_decide_eq_false in Hm|].
  destruct txt as [t|]; [|done]. exists t. split; [done|].
  simpl in Hl. by apply Z.ltb_ge.
Qed.

(** X8: pressing "Generate Summary" sends at most one request to the model,
    and sends one only if the button was pressed, the client is configured,
    a model handle exists and the stored text has at least 50 characters. *)
Theorem request_only_when_ready (inp : inputs) (gemini_model : option model)
  (s : session_state) :
  let n := count_events is_generation
             (emitted (generate_summary inp gemini_model s)) in
  (n <= 1)%nat /\
  (n = 1%nat ->
   button inp "Generate Summary with Gemini" (summarize_button_disabled s) = true /\
   gemini_configured s = true /\ gemini_model <> None /\
   exists txt, pdf_text s = Some txt /\ 50 <= len txt).
Proof.
  simpl.
  pose proof (summarize_request_count inp (pdf_text s) gemini_model s) as Hn.
  pose proof (ready_to_summarize_true s (pdf_text s) gemini_model) as Hready.
  unfold generate_summary. run_block.
  destruct (button inp _ _); simpl; [|count_trace; split; [lia|done]].
  destruct (negb (bool_decide (gemini_model = None)) && opt_truthy (pdf_text s));
    simpl;
    [|destruct (negb (opt_truthy (pdf_text s))); simpl; count_trace;
      split; (lia || done)].
  destruct (summarize_with_gemini inp (pdf_text s) gemini_model s)
    as [[o|e] s1 t1]; simpl in *;
    [destruct (opt_truthy o); simpl|].
  all: count_trace; rewrite Hn.
  all: destruct (ready_to_summarize s (pdf_text s) gemini_model);
    (split; [lia|]); intros ?; (by split; [|apply Hready]) || lia.
Qed.

Lemma request_only_when_ready_witness :
  gemini_configured
    (set_pdf_text (Some judgement_text) configured_session) = true.
Proof.
  apply (request_only_when_ready summarize_judgement (Some (Model model_id))
           (set_pdf_text (Some judgement_text) configured_session)).
  vm_compute. reflexivity.
Defined.

(** X9: when the model answers with a non-empty text, the handler stores
    exactly that text as the summary and changes no other field of the
    session; an answer whose text is empty is not stored and the summary
    stays what it was. *)
Theorem generated_summary_is_stored (inp : inputs) (mdl : model)
  (s : session_state) (txt : string) (r : response) (p : string)
  (ps : list string) (answer : string) :
  button inp "Generate Summary with Gemini" (summarize_button_disabled s) = true ->
  gemini_configured s = true ->
  pdf_text s = Some txt ->
  50 <= len txt ->
  generate_content inp mdl (build_prompt (str_take max_chars txt)) safety_settings
    = Ok r ->
  parts r = Ok (p :: ps) ->
  text r = Ok answer ->
  let s' := state_after (generate_summary inp (Some mdl) s) in
  summary s' = (if str_truthy answer then Some answer else summary s) /\
  other_than_summary s' = other_than_summary s.
Proof.
  intros Hclick Hc Htext Hlen Hgen Hparts Hanswer. cbv zeta.
  unfold generate_summary, summarize_with_gemini. run_block.
  rewrite Hclick. simpl. rewrite Htext. simpl.
  rewrite (len_truthy txt) by lia. simpl. rewrite Hc. simpl.
  destruct (Z.ltb_spec (len txt) 50) as [?|_]; [lia|].
  fold (build_prompt (str_take max_chars txt)).
  destruct (len txt >? max_chars); simpl; rewrite Hgen; simpl;
    rewrite Hparts; simpl; rewrite Hanswer; simpl;
    by destruct (str_truthy answer).
Qed.

Lemma generated_summary_witness :
  summary
    (state_after
       (generate_summary summarize_judgement (Some (Model model_id))
          (set_pdf_text (Some judgement_text) configured_session)))
  = Some "Appeal allowed." /\
  other_than_summary
    (state_after
       (generate_summary summarize_judgement (Some (Model model_id))
          (set_pdf_text (Some judgement_text) configured_session)))
  = other_than_summary (set_pdf_text (Some judgement_text) configured_session).
Proof.
  apply (generated_summary_is_stored summarize_judgement (Model model_id)
           (set_pdf_text (Some judgement_text) configured_session)
           judgement_text
           (Response (Ok ["Appeal allowed."]) (Ok "Appeal allowed.") (Ok None) (Ok None))
           "Appeal allowed." [] "Appeal allowed.");
    try reflexivity; vm_compute; discriminate.
Defined.

Ltac trace_inv H :=
  repeat (apply elem_of_cons in H as [H|H]; [try discriminate H|]);
  try (by apply elem_of_nil in H).

(** X10: every request the summarizer sends carries the four safety
    settings, goes to the model it was given, and has as prompt the template
    around a prefix of the text of at most 100,000 characters, so the prompt
    is never longer than the template plus 100,000 characters. *)
Theorem every_request_is_bounded (inp : inputs) (txt : option string)
  (mdl : option model) (s : session_state)
  (m : model) (prompt : string) (settings : list (string * string)) :
  CallGenerateContent m prompt settings
    ∈ emitted (summarize_with_gemini inp txt mdl s) ->
  mdl = Some m /\ settings = safety_settings /\
  exists body rest,
    txt = Some (body +:+ rest) /\
    prompt = prompt_head +:+ body +:+ prompt_tail /\
    len body <= 100000 /\
    len prompt <= len prompt_head + 100000 + len prompt_tail.
Proof.
  unfold summarize_with_gemini. run_block.
  destruct (negb (gemini_configured s) || bool_decide (mdl = None)) eqn:Hcfg;
    simpl; [intros H; trace_inv H|].
  destruct (negb (opt_truthy txt) || (len (default "" txt) <? 50)) eqn:Hshort;
    simpl; [intros H; trace_inv H|].
  apply orb_false_iff in Hcfg as [_ Hm%bool_decide_eq_false].
  apply orb_false_iff in Hshort as [Ht _].
  destruct mdl as [m'|]; [|done]. destruct txt as [t|]; [|done]. simpl.
  fold (build_prompt (str_take max_chars t)).
  assert (Hbound : len (str_take max_chars t) <= 100000).
  { unfold str_take, len, max_chars. rewrite substring_length. lia. }
  destruct (substring_prefix (Z.to_nat max_chars) t) as [rest Hrest].
  fold (str_take max_chars t) in Hrest.
  intros H.
  assert (Hreq : CallGenerateContent m prompt settings
                 = CallGenerateContent m' (build_prompt (str_take max_chars t))
                     safety_settings).
  { revert H.
    destruct (len t >? max_chars); simpl;
      (destruct (generate_content inp m' _ _) as [resp|e]; simpl;
       [destruct (parts resp) as [[|? ?]|e']; simpl;
        [destruct (block_details resp); simpl
        |destruct (text resp) as [?|e]; simpl; [|api_error_cases e]
        |api_error_cases e']
       |api_error_cases e]);
      intros H; trace_inv H; done. }
  injection Hreq as -> -> ->.
  split; [done|]. split; [done|].
  exists (str_take max_chars t), rest. split; [by rewrite <- Hrest|].
  split; [done|]. split; [done|].
  unfold build_prompt. rewrite !len_app. lia.
Qed.

Lemma every_request_is_bounded_witness :
  len (build_prompt judgement_text)
  <= len prompt_head + 100000 + len prompt_tail.
Proof.
  destruct (every_request_is_bounded idle (Some judgement_text)
              (Some (Model model_id)) configured_session (Model model_id)
              (build_prompt judgement_text) safety_settings)
    as (_ & _ & body & rest & _ & _ & _ & H); [|exact H].
  apply (list_elem_of_lookup_2 _ 0%nat). vm_compute. reflexivity.
Defined.

(** ** The summary panel *)

(** X11: the summary panel shows exactly one thing: the stored summary when
    there is a non-empty one (title, text, rule) and never a banner beside
    it, and otherwise exactly one banner; it raises nothing and writes
    nothing. *)
Theorem summary_panel_shows_one_thing (disabled : bool) (s : session_state) :
  let r := show_summary disabled s in
  value r = Ok tt /\ state_after r = s /\
  ((exists t, summary s = Some t /\ t <> "" /\
              emitted r = [Markdown MSummaryTitle; Markdown (MSummaryBody t);
                           Markdown MRule]) \/
   (opt_truthy (summary s) = false /\
    exists l m, emitted r = [Banner Main l m])).
Proof.
  unfold show_summary. run_block.
  destruct (summary s) as [[|c t]|]; simpl.
  2: { split; [done|]. split; [done|]. left. exists (String c t).
       split; [done|]. split; [discriminate|done]. }
  all: destruct disabled; simpl;
    [destruct (opt_truthy (gemini_error s)); simpl;
     [|destruct (negb (opt_truthy (pdf_text s))); simpl]|].
  all: split; [done|]; split; [done|]; right; split; [done|]; by eexists _, _.
Qed.

(** ** Uploading, removing, uploading again *)

Lemma configure_gemini_no_generation inp key :
  silent is_generation (configure_gemini inp key).
Proof. unfold configure_gemini. walk_silent. Qed.

(** With a file in the uploader, what a pass extracts and stores as text and
    identity is what its upload block does, and that block finds the
    document fields the pass started with. *)
Lemma render_pass_with_file inp f s :
  pdf_uploader inp = Some f ->
  exists s2,
    document s2 = document s /\
    count_events is_extraction (emitted (render_pass inp s))
    = count_events is_extraction (emitted (process_upload inp f s2)) /\
    pdf_text (state_after (render_pass inp s))
    = pdf_text (state_after (process_upload inp f s2)) /\
    uploaded_file_id (state_after (render_pass inp s))
    = uploaded_file_id (state_after (process_upload inp f s2)) /\
    forall e, e ∈ emitted (process_upload inp f s2) ->
              e ∈ emitted (render_pass inp s).
Proof.
  intros Hfile.
  destruct (render_pass_run inp f s Hfile) as (k & gm & Hk & Hgm & ->).
  set (s1 := state_after (resolve_api_key inp s)) in *.
  set (s2 := state_after (configure_gemini inp k s1)).
  exists s2. split; [by apply (sidebar_keeps_document inp s k gm)|].
  simpl.
  rewrite !count_events_app, resolve_api_key_no_extraction,
    configure_gemini_no_extraction, columns_no_extraction.
  assert (Ha : (pdf_text (state_after
                            (columns inp f gm (state_after (process_upload inp f s2)))),
                uploaded_file_id (state_after
                            (columns inp f gm (state_after (process_upload inp f s2)))))
               = (pdf_text (state_after (process_upload inp f s2)),
                  uploaded_file_id (state_after (process_upload inp f s2)))).
  { apply (columns_respects (same (fun s => (pdf_text s, uploaded_file_id s)))).
    apply analysis_and_details_respects;
      first [apply _ | intros; exact eq_refl]. }
  injection Ha as Ht Hi.
  split; [lia|]. split; [done|]. split; [done|].
  intros e He. rewrite !elem_of_app. auto.
Qed.

(** X12: a PDF that opens but holds no text is reported as a failed
    extraction and disables the summary button, yet, unlike a PDF that
    cannot be opened, it is not extracted again by the passes that follow
    with the same file. *)
Theorem textless_pdf_is_not_extracted_again (inp next : inputs)
  (f : uploaded_file) (s : session_state) :
  pdf_uploader inp = Some f ->
  pdf_uploader next = Some f ->
  uploaded_file_id s <> Some (file_id f) ->
  extraction_result inp f = Some "" ->
  let s' := state_after (render_pass inp s) in
  pdf_text s' = Some "" /\
  Banner Sidebar LError MExtractFailed ∈ emitted (render_pass inp s) /\
  summarize_button_disabled s' = true /\
  count_events is_extraction (emitted (render_pass next s')) = 0%nat.
Proof.
  intros Hfile Hnext Hnew Hempty. simpl.
  destruct (render_pass_with_file inp f s Hfile)
    as (s2 & Hdoc & _ & Htext & Hid & Hin).
  injection Hdoc as Ht2 _ Hi2.
  destruct (process_upload_extracts inp f s2) as (_ & Hst & _);
    [left; congruence|].
  rewrite Hst in Htext, Hid. simpl in Htext, Hid. rewrite Hempty in Htext.
  split; [done|]. split.
  { apply Hin. unfold process_upload, extract_text_from_pdf. run_block.
    assert (bool_decide (pdf_text s2 = None)
            || negb (bool_decide (Some (file_id f) = uploaded_file_id s2)) = true)
      as ->.
    { rewrite (bool_decide_eq_false_2 (Some (file_id f) = uploaded_file_id s2))
        by congruence. apply orb_true_r. }
    unfold extraction_result in Hempty.
    destruct (fitz_pages inp (content f)) as [pages|e]; [|done].
    injection Hempty as ->. simpl. in_trace. }
  split.
  { unfold summarize_button_disabled. rewrite Htext. apply orb_true_r. }
  destruct (render_pass_with_file next f (state_after (render_pass inp s))
              Hnext) as (s2' & Hdoc' & Hcount & _).
  injection Hdoc' as Ht2' _ Hi2'.
  rewrite Hcount, process_upload_skips; [done|congruence..].
Qed.

Lemma textless_pdf_witness :
  count_events is_extraction
    (emitted (render_pass scanned_pdf
                (state_after (render_pass scanned_pdf default_session_state))))
  = 0%nat.
Proof.
  apply (textless_pdf_is_not_extracted_again scanned_pdf scanned_pdf a_pdf
           default_session_state); try reflexivity.
  discriminate.
Defined.

(** X13: removing the file and uploading one again, the same file included,
    starts afresh: the pass that follows the removal makes exactly one
    extraction attempt and stores its outcome and the file's identity. *)
Theorem removed_file_is_extracted_afresh (inp : inputs) (f : uploaded_file)
  (s : session_state) :
  pdf_uploader inp = Some f ->
  let r := render_pass inp (on_change_pdf_uploader None s) in
  count_events is_extraction (emitted r) = 1%nat /\
  pdf_text (state_after r) = extraction_result inp f /\
  uploaded_file_id (state_after r) = Some (file_id f).
Proof.
  intros Hfile. cbv zeta.
  destruct (render_pass_with_file inp f (on_change_pdf_uploader None s)
              Hfile) as (s2 & Hdoc & Hcount & Htext & Hid & _).
  injection Hdoc as Ht2 _ Hi2. simpl in Ht2, Hi2.
  destruct (process_upload_extracts inp f s2) as (_ & Hst & Hn);
    [by right|].
  rewrite Hcount, Htext, Hid, Hst. by repeat split.
Qed.

Lemma removed_file_witness :
  count_events is_extraction
    (emitted (render_pass summarize_judgement
                (on_change_pdf_uploader None
                   (state_after
                      (render_pass summarize_judgement default_session_state)))))
  = 1%nat.
Proof.
  apply (removed_file_is_extracted_afresh summarize_judgement a_pdf).
  reflexivity.
Defined.

(** X14: without a file in the uploader a render pass only shows the prompt
    to upload one: it extracts nothing, requests no summary, and leaves the
    document fields and everything entered by hand as they are. *)
Theorem pass_without_file_is_inert (inp : inputs) (s : session_state) :
  pdf_uploader inp = None ->
  let r := render_pass inp s in
  document (state_after r) = document s /\
  manual_entries (state_after r) = manual_entries s /\
  count_events is_extraction (emitted r) = 0%nat /\
  count_events is_generation (emitted r) = 0%nat /\
  Banner Main LInfo MUploadToStart ∈ emitted r.
Proof.
  intros Hfile. simpl.
  destruct (resolve_api_key_total inp s) as [k Hk].
  set (s1 := state_after (resolve_api_key inp s)).
  destruct (configure_gemini_total inp k s1) as [gm Hgm].
  pose proof (resolve_api_key_respects
                (same (fun s => (document s, manual_entries s))) inp) as H1.
  pose proof (configure_gemini_respects
                (same (fun s => (document s, manual_entries s))) inp k) as H2.
  unfold respects, same in H1, H2.
  pose proof (H2 ltac:(done) ltac:(done) s1) as E2.
  pose proof (H1 ltac:(done) ltac:(done) s) as E1. fold s1 in E1.
  rewrite E1 in E2. apply pair_equal_spec in E2 as [Hd Hm]. clear H1 H2 E1.
  unfold render_pass.
  rewrite (bind_run _ _ _ _ Hk). fold s1.
  rewrite (bind_run _ _ _ _ Hgm). simpl.
  unfold main_area. rewrite Hfile. simpl.
  rewrite !count_events_app, resolve_api_key_no_extraction,
    resolve_api_key_no_generation, configure_gemini_no_extraction,
    configure_gemini_no_generation.
  split; [done|]. split; [done|]. split; [done|]. split; [done|].
  rewrite !elem_of_app. right. right. in_trace.
Qed.

Lemma pass_without_file_witness :
  manual_entries (state_after (render_pass accepted_key three_hearings))
  = manual_entries three_hearings.
Proof.
  apply (pass_without_file_is_inert accepted_key three_hearings). reflexivity.
Defined.

(** ** The stored hearings *)

Lemma add_hearing_keeps_complete inp :
  respects (stays (fun s => Forall complete_hearing (hearings s)))
    (add_hearing inp).
Proof.
  intros s Hs. unfold add_hearing. run_block.
  destruct (button inp "add_hearing_btn" false); simpl; [|done].
  destruct (date_input inp "new_hearing_date" None) as [d|]; simpl; [|done].
  destruct (text_area inp "new_hearing_summary" (PStr "")) as [|c t] eqn:Ht;
    simpl; [done|].
  apply Forall_app. split; [done|]. constructor; [|done].
  by exists d, (String c t).
Qed.

Lemma complete_hearing_dated h :
  complete_hearing h -> is_Some (well_formed_date h).
Proof.
  intros (d & t & -> & _). exists d. simpl. by rewrite lookup_insert_eq.
Qed.

Lemma filter_Forall_id {A} (P : A -> Prop) `{!forall x, Decision (P x)} l :
  Forall P l -> filter P l = l.
Proof.
  induction 1 as [|x l Hx Hl IH]; [done|].
  by rewrite filter_cons_True, IH.
Qed.

Lemma numbered_rows_length n l :
  Forall (fun h => is_Some (well_formed_date h)) l ->
  length (numbered_rows n l) = length l.
Proof.
  intros Hl. revert n. induction Hl as [|h l [d Hd] Hl IH]; intros n; [done|].
  simpl. rewrite Hd. simpl. by rewrite IH.
Qed.

(** X15: every stored hearing is shown.  In every reachable session each
    stored record is one built by the "Add Hearing Summary" handler, with a
    calendar date and a non-empty summary; so the filter of the display
    drops none of them and the list shows as many rows as records are
    stored. *)
Theorem every_stored_hearing_is_shown (s : session_state) :
  reachable s ->
  Forall complete_hearing (hearings s) /\
  exists shown,
    shown ≡ₚ hearings s /\
    shown_rows (emitted (display_hearings s)) = numbered_rows 0 shown /\
    length (shown_rows (emitted (display_hearings s))) = length (hearings s).
Proof.
  intros Hs.
  assert (Hc : Forall complete_hearing (hearings s)).
  { revert s Hs. apply reachable_stays.
    - constructor.
    - intros inp. apply render_pass_respects_blocks; [apply _|..];
        try frame_blocks.
      apply add_hearing_keeps_complete.
    - intros widget s. by destruct widget. }
  split; [done|].
  assert (Hd : Forall (fun h => is_Some (well_formed_date h)) (hearings s)).
  { eapply Forall_impl; [exact Hc|]. apply complete_hearing_dated. }
  assert (Ht : dates_typed (hearings s)).
  { eapply Forall_impl; [exact Hd|]. by intros h Hh _. }
  destruct (sorted_hearings_dated _ Ht) as (shown & Hsort & Hperm & _).
  rewrite (filter_Forall_id _ _ Hd) in Hperm.
  assert (Hshown : Forall (fun h => is_Some (well_formed_date h)) shown)
    by (by rewrite Hperm).
  destruct (display_hearings_dated s shown Hsort Hshown) as (_ & _ & Hrows).
  exists shown. split; [done|]. split; [done|].
  by rewrite Hrows, numbered_rows_length, Hperm.
Qed.

Lemma every_stored_hearing_witness :
  Forall complete_hearing (hearings three_hearings) /\
  exists shown,
    shown ≡ₚ hearings three_hearings /\
    shown_rows (emitted (display_hearings three_hearings))
      = numbered_rows 0 shown /\
    length (shown_rows (emitted (display_hearings three_hearings)))
      = length (hearings three_hearings).
Proof.
  apply (every_stored_hearing_is_shown three_hearings). repeat constructor.
Defined.

(** ** Which key reaches the SDK *)

Lemma count_events_none p t e :
  count_events p t = 0%nat -> e ∈ t -> p e = false.
Proof.
  unfold count_events. intros Hn He.
  destruct (p e) eqn:Hp; [|done].
  assert (Hin : e ∈ filter (fun e => p e = true) t)
    by (by apply list_elem_of_filter).
  destruct (filter _ t); [by apply elem_of_nil in Hin|done].
Qed.

Lemma resolve_api_key_choice inp s :
  let typed := text_input inp "gemini_key_input" (PStr (user_gemini_key s)) in
  let r := resolve_api_key inp s in
  user_gemini_key (state_after r) = typed /\
  (forall k, secrets_get inp = Ok (Some k) -> k <> "" -> value r = Ok (Some k)) /\
  (secrets_get inp = Ok None \/ secrets_get inp = Ok (Some "") \/
   (exists e, secrets_get inp = Raise e) ->
   value r = Ok (if str_truthy typed then Some typed else None)).
Proof.
  unfold resolve_api_key. run_block. split; [|split].
  - destruct (secrets_get inp) as [[k|]|e]; simpl;
      try destruct (str_truthy k); simpl;
      try destruct (str_truthy
                      (text_input inp "gemini_key_input" (PStr (user_gemini_key s))));
      done.
  - intros k -> Hk. simpl. by destruct k.
  - intros [-> | [-> | [e ->]]]; simpl;
      by destruct (str_truthy
                     (text_input inp "gemini_key_input" (PStr (user_gemini_key s)))).
Qed.

Lemma configure_gemini_key inp k s key :
  CallConfigure key ∈ emitted (configure_gemini inp k s) -> k = Some key.
Proof.
  unfold configure_gemini. run_block.
  destruct k as [k|]; simpl; [destruct (str_truthy k); simpl|];
    destruct (gemini_configured s); simpl;
    try destruct (bool_decide (gemini_error s = None)); simpl;
    try destruct (genai_configure inp k); simpl;
    try destruct (genai_GenerativeModel inp model_id); simpl;
    try destruct (opt_truthy (gemini_error s)); simpl;
    intros H; trace_inv H; by injection H as <-.
Qed.

(** X16: the key handed to [genai.configure] is the one from the secrets
    whenever the secrets hold a non-empty one, whatever the user typed, and
    otherwise the key typed in the sidebar; it is never empty.  The typed
    key is stored in [user_gemini_key] in either case. *)
Theorem secrets_key_takes_precedence (inp : inputs) (s : session_state)
  (key : string) :
  CallConfigure key ∈ emitted (render_pass inp s) ->
  let typed := text_input inp "gemini_key_input" (PStr (user_gemini_key s)) in
  user_gemini_key (state_after (render_pass inp s)) = typed /\
  key <> "" /\
  (forall k, secrets_get inp = Ok (Some k) -> k <> "" -> key = k) /\
  (secrets_get inp = Ok None \/ secrets_get inp = Ok (Some "") \/
   (exists e, secrets_get inp = Raise e) -> key = typed).
Proof.
  intros Hin. cbv zeta.
  destruct (resolve_api_key_choice inp s) as (Htyped & Hsecret & Huser).
  destruct (resolve_api_key_total inp s) as [k Hk].
  set (s1 := state_after (resolve_api_key inp s)) in *.
  destruct (configure_gemini_total inp k s1) as [gm Hgm].
  assert (Hkeep : user_gemini_key (state_after (render_pass inp s))
                  = user_gemini_key s1).
  { pose proof (configure_gemini_respects (same user_gemini_key) inp k) as H2.
    pose proof (main_area_respects (same user_gemini_key) inp gm) as H3.
    unfold respects, same in H2, H3.
    unfold render_pass. rewrite (bind_run _ _ _ _ Hk). fold s1.
    rewrite (bind_run _ _ _ _ Hgm). simpl. rewrite H3, H2; done. }
  assert (Hkey : k = Some key).
  { revert Hin. unfold render_pass. rewrite (bind_run _ _ _ _ Hk). fold s1.
    rewrite (bind_run _ _ _ _ Hgm). simpl. rewrite !elem_of_app.
    intros [Hin | [Hin | Hin]].
    - by apply (count_events_none _ _ _ (resolve_api_key_no_sdk_setup inp s))
        in Hin.
    - by apply configure_gemini_key in Hin.
    - by apply (count_events_none _ _ _
                  (main_area_no_sdk_setup inp gm _)) in Hin. }
  subst k. split; [congruence|]. split.
  { destruct (resolve_api_key_found inp s key Hk) as [Ht _]. by intros ->. }
  split.
  - intros k' Hs Hne. specialize (Hsecret k' Hs Hne). congruence.
  - intros Hnone. specialize (Huser Hnone). rewrite Hk in Huser.
    destruct (str_truthy _); congruence.
Qed.

Lemma secrets_key_witness :
  user_gemini_key (state_after (render_pass two_keys default_session_state))
  = "k-456" /\
  "k-secret" <> "" /\
  (forall k, secrets_get two_keys = Ok (Some k) -> k <> "" -> "k-secret" = k) /\
  (secrets_get two_keys = Ok None \/ secrets_get two_keys = Ok (Some "") \/
   (exists e, secrets_get two_keys = Raise e) -> "k-secret" = "k-456").
Proof.
  apply (secrets_key_takes_precedence two_keys default_session_state "k-secret").
  vm_compute. in_trace.
Defined.

(** ** The manual entries *)

Lemma text_field_insert (m : gmap string pyval) k k' v :
  (k = k' -> exists t, v = PStr t) ->
  text_field m k' -> text_field (<[k := v]> m) k'.
Proof.
  intros Hv [t Ht]. unfold text_field. destruct (decide (k = k')) as [->|Hne].
  - destruct (Hv eq_refl) as [t' ->]. exists t'. by rewrite lookup_insert_eq.
  - exists t. by rewrite lookup_insert_ne.
Qed.

Lemma date_field_insert (m : gmap string pyval) k k' v :
  (k = k' -> exists d, v = of_date d) ->
  date_field m k' -> date_field (<[k := v]> m) k'.
Proof.
  intros Hv [d Hd]. unfold date_field. destruct (decide (k = k')) as [->|Hne].
  - destruct (Hv eq_refl) as [d' ->]. exists d'. by rewrite lookup_insert_eq.
  - exists d. by rewrite lookup_insert_ne.
Qed.

Ltac field_kept :=
  repeat first
    [ apply text_field_insert; [intros ?; first [discriminate | by eexists]|]
    | apply date_field_insert; [intros ?; first [discriminate | by eexists]|] ];
  assumption.

Lemma edit_case_details_typed inp :
  respects (stays entries_typed) (edit_case_details inp).
Proof.
  intros s [(H1 & H2 & H3 & H4 & H5 & H6) [H7 H8]].
  unfold edit_case_details, edit_case_text. run_block.
  unfold entries_typed. simpl. repeat split; field_kept.
Qed.

Lemma edit_timeline_typed inp :
  respects (stays entries_typed) (edit_timeline inp).
Proof.
  intros s [(H1 & H2 & H3 & H4 & H5 & H6) [H7 H8]].
  unfold edit_timeline. run_block.
  unfold entries_typed. simpl. repeat split; field_kept.
Qed.

Lemma reachable_entries_typed s : reachable s -> entries_typed s.
Proof.
  revert s. apply reachable_stays.
  - unfold entries_typed, text_field, date_field. simpl.
    repeat split; first [by exists "" | by exists None].
  - intros inp. apply render_pass_respects_blocks; [apply _|..];
      try frame_blocks.
    + apply edit_case_details_typed.
    + apply edit_timeline_typed.
  - intros widget s. by destruct widget.
Qed.

Lemma set_case_details_id s : set_case_details (case_details s) s = s.
Proof. by destruct s. Qed.

Lemma set_timeline_id s : set_timeline (timeline s) s = s.
Proof. by destruct s. Qed.

(** A text field that the user leaves as shown is written back as it is. *)
Lemma edit_case_text_unedited widget field key s :
  (forall k t, widget k (PStr t) = t) ->
  text_field (case_details s) field ->
  value (edit_case_text widget field key s) = Ok tt /\
  state_after (edit_case_text widget field key s) = s.
Proof.
  intros Hw [t Ht]. unfold edit_case_text. run_block.
  unfold dict_get. rewrite Ht, Hw, insert_id by done.
  by rewrite set_case_details_id.
Qed.

Lemma edit_case_details_unedited inp s :
  nothing_edited inp -> entries_typed s ->
  state_after (edit_case_details inp s) = s.
Proof.
  intros (Hti & Hta & Hd & _) [(H1 & H2 & H3 & H4 & [d H5] & H6) _].
  unfold edit_case_details.
  destruct (edit_case_text_unedited (text_input inp) "name" "case_name" s Hti H1)
    as [V1 S1].
  rewrite (state_after_bind _ _ _ _ V1), S1.
  destruct (edit_case_text_unedited (text_input inp) "number" "case_number" s Hti H2)
    as [V2 S2].
  rewrite (state_after_bind _ _ _ _ V2), S2.
  destruct (edit_case_text_unedited (text_input inp) "court" "case_court" s Hti H3)
    as [V3 S3].
  rewrite (state_after_bind _ _ _ _ V3), S3.
  destruct (edit_case_text_unedited (text_input inp) "judges" "case_judges" s Hti H4)
    as [V4 S4].
  rewrite (state_after_bind _ _ _ _ V4), S4.
  destruct (edit_case_text_unedited (text_area inp) "citations" "case_citations"
              s Hta H6) as [V6 S6].
  assert (Hdate :
    forall k : unit -> M unit,
      state_after
        (bind (let* s := get in
               let shown := dict_get (case_details s) "judgement_date" PNone in
               emit (DateInput "case_judgement_date" (Some shown)) ;;;
               modify (fun s => set_case_details
                 (<["judgement_date" :=
                      of_date (date_input inp "case_judgement_date" (Some shown))]>
                    (case_details s)) s))%py k s)
      = state_after (k tt s)).
  { intros k. run_block. unfold dict_get. rewrite H5, Hd, insert_id by done.
    rewrite set_case_details_id. by destruct (k tt s). }
  rewrite Hdate. exact S6.
Qed.

Lemma edit_timeline_unedited inp s :
  nothing_edited inp -> entries_typed s ->
  state_after (edit_timeline inp s) = s.
Proof.
  intros (_ & _ & Hd & _) [_ [[f Hf] [d Hdec]]].
  unfold edit_timeline, timeline_decision_date. run_block.
  unfold dict_get. rewrite Hf, Hdec, !Hd.
  rewrite (insert_id (timeline s)) by done.
  rewrite set_timeline_id. simpl.
  rewrite insert_id by done. apply set_timeline_id.
Qed.

Lemma add_hearing_unpressed inp s :
  nothing_edited inp -> state_after (add_hearing inp s) = s.
Proof.
  intros (_ & _ & _ & Hb). unfold add_hearing. run_block. by rewrite Hb.
Qed.

Lemma entries_typed_ext s s' :
  manual_entries s' = manual_entries s -> entries_typed s -> entries_typed s'.
Proof.
  unfold manual_entries, entries_typed. intros [= -> -> _]. done.
Qed.

#[local] Instance entries_kept_preorder : PreOrder entries_kept.
Proof.
  split.
  - by intros s _.
  - intros s1 s2 s3 H12 H23 H1. specialize (H12 H1).
    rewrite (H23 (entries_typed_ext _ _ H12 H1)). exact H12.
Qed.

Ltac entries_untouched :=
  intros;
  first
    [ apply resolve_api_key_respects | apply configure_gemini_respects
    | apply process_upload_respects | apply generate_summary_respects ];
  first [ by apply _ | by unfold entries_kept ].

(** X17: a render pass in which the user edits nothing and presses no
    button writes every manual entry back as it was: the case details, the
    timeline and the hearings of a reachable session are unchanged by it. *)
Theorem unedited_pass_keeps_manual_entries (inp : inputs) (s : session_state) :
  reachable s ->
  nothing_edited inp ->
  manual_entries (state_after (render_pass inp s)) = manual_entries s.
Proof.
  intros Hs Hidle.
  assert (H : respects entries_kept (render_pass inp)).
  { apply render_pass_respects_blocks; [apply _|..]; try entries_untouched.
    - intros s0. unfold entries_kept. intros H0.
      by rewrite edit_case_details_unedited.
    - intros s0. unfold entries_kept. intros H0.
      by rewrite edit_timeline_unedited.
    - intros s0. unfold entries_kept. intros H0.
      by rewrite add_hearing_unpressed. }
  apply H. by apply reachable_entries_typed.
Qed.

Lemma unedited_pass_witness :
  manual_entries (state_after (render_pass look_at_pdf three_hearings))
  = manual_entries three_hearings.
Proof.
  apply unedited_pass_keeps_manual_entries.
  - repeat constructor.
  - repeat split; intros; try reflexivity. by destruct d.
Defined.

(** ** What the button handler never has to say *)

Lemma resolve_api_key_no_fallback inp : silent is_fallback (resolve_api_key inp).
Proof. unfold resolve_api_key. walk_silent. Qed.

Lemma configure_gemini_no_fallback inp key :
  silent is_fallback (configure_gemini inp key).
Proof. unfold configure_gemini. walk_silent. Qed.

Lemma process_upload_no_fallback inp f : silent is_fallback (process_upload inp f).
Proof. unfold process_upload, extract_text_from_pdf. walk_silent. Qed.

Lemma show_pdf_no_fallback inp f : silent is_fallback (show_pdf inp f).
Proof. unfold show_pdf. walk_silent. Qed.

Lemma show_summary_no_fallback disabled : silent is_fallback (show_summary disabled).
Proof. unfold show_summary. walk_silent. Qed.

Lemma manual_entry_no_fallback inp : silent is_fallback (manual_entry inp).
Proof.
  unfold manual_entry, edit_case_details, edit_case_text, edit_timeline,
    add_hearing, display_hearings, show_hearing.
  walk_silent.
Qed.

(** After the sidebar has run there is a model handle, or the client is not
    configured. *)
Lemma sidebar_model_or_unconfigured inp s k gm :
  value (resolve_api_key inp s) = Ok k ->
  value (configure_gemini inp k (state_after (resolve_api_key inp s))) = Ok gm ->
  gm <> None \/
  gemini_configured
    (state_after (configure_gemini inp k (state_after (resolve_api_key inp s))))
  = false.
Proof.
  intros Hk.
  assert (Hkey : (exists k', k = Some k' /\ str_truthy k' = true) \/
                 (k = None /\
                  gemini_configured (state_after (resolve_api_key inp s)) = false)).
  { revert Hk. unfold resolve_api_key. run_block.
    destruct (secrets_get inp) as [[k'|]|e]; simpl;
      try destruct (str_truthy k') eqn:Hk'; simpl;
      try destruct (str_truthy
                      (text_input inp "gemini_key_input" (PStr (user_gemini_key s))))
        eqn:Ht; simpl;
      intros [= <-]; eauto. }
  set (s1 := state_after (resolve_api_key inp s)) in *.
  unfold configure_gemini. run_block.
  destruct Hkey as [(k' & -> & Hk')|[-> Hc]]; simpl.
  - rewrite Hk'. simpl.
    destruct (gemini_configured s1) eqn:Hc; simpl;
      try destruct (bool_decide (gemini_error s1 = None)); simpl;
      try destruct (genai_configure inp k'); simpl;
      try destruct (genai_GenerativeModel inp model_id); simpl;
      try destruct (opt_truthy (gemini_error s1)); simpl;
      intros [= <-]; auto.
  - rewrite Hc. simpl. destruct (opt_truthy (gemini_error s1)); simpl; auto.
Qed.

Lemma summarize_no_fallback inp txt mdl s :
  gemini_configured s = true -> mdl <> None ->
  count_events is_fallback (emitted (summarize_with_gemini inp txt mdl s)) = 0%nat.
Proof.
  intros Hc Hm. unfold summarize_with_gemini. run_block. rewrite Hc.
  rewrite (bool_decide_eq_false_2 (mdl = None)) by done. simpl.
  destruct (opt_truthy txt); simpl; [|done].
  destruct (len (default "" txt) <? 50); simpl; [done|].
  destruct (len (default "" txt) >? max_chars); simpl;
    (destruct (generate_content inp _ _ _) as [resp|e]; simpl;
     [destruct (parts resp) as [[|? ?]|e']; simpl;
      [destruct (block_details resp); simpl
      |destruct (text resp) as [?|e]; simpl; [|api_error_cases e]
      |api_error_cases e']
     |api_error_cases e]);
    by rewrite ?count_events_cons.
Qed.

Lemma generate_summary_no_fallback inp gemini_model s :
  (forall key, button inp key true = false) ->
  gemini_model <> None \/ gemini_configured s = false ->
  count_events is_fallback (emitted (generate_summary inp gemini_model s))
  = 0%nat.
Proof.
  intros Hbtn Hgm.
  pose proof (summarize_no_fallback inp (pdf_text s) gemini_model s) as Hn.
  unfold generate_summary, summarize_button_disabled. run_block.
  destruct (gemini_configured s) eqn:Hc; simpl; [|by rewrite Hbtn].
  destruct Hgm as [Hgm|Hgm]; [|done].
  destruct (opt_truthy (pdf_text s)) eqn:Ht; simpl; [|by rewrite Hbtn].
  destruct (button inp _ false); simpl; [|done].
  rewrite (bool_decide_eq_false_2 (gemini_model = None)) by done. simpl.
  specialize (Hn eq_refl Hgm).
  destruct (summarize_with_gemini inp (pdf_text s) gemini_model s)
    as [[o|e] s1 t1]; simpl in *.
  - destruct (opt_truthy o); simpl;
      rewrite !count_events_cons, !count_events_app, Hn; done.
  - by rewrite !count_events_cons, Hn.
Qed.

Lemma silent_bind_at p {A B} (m : M A) (k : A -> M B) s :
  count_events p (emitted (m s)) = 0%nat ->
  (forall a, value (m s) = Ok a ->
             count_events p (emitted (k a (state_after (m s)))) = 0%nat) ->
  count_events p (emitted (bind m k s)) = 0%nat.
Proof.
  intros Hm Hk. unfold bind.
  destruct (m s) as [[a|e] s1 t1]; simpl in *; [|done].
  specialize (Hk a eq_refl). destruct (k a s1) as [v s2 t2]; simpl in *.
  rewrite count_events_app. lia.
Qed.

(** X18: Streamlit never reports a disabled button as pressed; so no render pass
    ever shows the handler's messages for a press without text or without
    a model handle, nor the summarizer's "not configured" warning: whenever
    the button can be pressed, the client is configured, a model handle
    exists and a non-empty text is stored. *)
Theorem button_press_never_falls_through (inp : inputs) (s : session_state) :
  (forall key, button inp key true = false) ->
  count_events is_fallback (emitted (render_pass inp s)) = 0%nat.
Proof.
  intros Hbtn.
  destruct (resolve_api_key_total inp s) as [k Hk].
  set (s1 := state_after (resolve_api_key inp s)).
  destruct (configure_gemini_total inp k s1) as [gm Hgm].
  set (s2 := state_after (configure_gemini inp k s1)).
  pose proof (sidebar_model_or_unconfigured inp s k gm Hk Hgm) as Hready.
  fold s1 in Hready. fold s2 in Hready.
  unfold render_pass.
  rewrite (bind_run _ _ _ _ Hk). fold s1.
  rewrite (bind_run _ _ _ _ Hgm). fold s2. simpl.
  rewrite !count_events_app, resolve_api_key_no_fallback,
    configure_gemini_no_fallback. simpl.
  unfold main_area. destruct (pdf_uploader inp) as [f|]; [|done].
  apply silent_bind_at; [apply process_upload_no_fallback|intros _ _].
  set (s3 := state_after (process_upload inp f s2)).
  assert (Hready3 : gm <> None \/ gemini_configured s3 = false).
  { destruct Hready as [?|Hc]; [by left|right].
    pose proof (process_upload_respects (same gemini_configured) inp f) as Hp.
    unfold respects, same in Hp. fold s3 in Hp. rewrite <- Hc. by apply Hp. }
  apply silent_bind_at; [apply show_pdf_no_fallback|intros _ _].
  pose proof (show_pdf_respects (same id) inp f s3) as Hs. unfold same in Hs.
  simpl in Hs. rewrite Hs.
  unfold analysis_and_details.
  apply silent_bind_at; [done|intros s0 [= <-]]. simpl.
  apply silent_bind_at; [by apply generate_summary_no_fallback|intros _ _].
  apply silent_bind_at; [apply show_summary_no_fallback|intros _ _].
  apply manual_entry_no_fallback.
Qed.

Lemma button_press_witness :
  count_events is_fallback
    (emitted (render_pass press_generate default_session_state)) = 0%nat.
Proof.
  apply (button_press_never_falls_through press_generate).
  intros key. reflexivity.
Defined.
